(** * The LightRAG document hook: catalog, submission and reconciliation

    A shallow embedding of [apps/web/src/features/rag/hooks/use-lightrag.tsx]
    ([useLightRAG]).  The hook keeps a snapshot of the server's documents
    in React state and talks to the backend through [fetch].  Every
    function of the hook is [async]: it runs up to its first [await],
    suspends, and resumes when the awaited promise settles.  The embedding
    therefore splits each function in two halves,

    - the part that runs when the function is called, which ends by
      issuing a request and registering what is left to do, and
    - the part that runs when the answer arrives,

    and puts an event loop around them: the user interface calls
    operations, answers arrive for outstanding requests in any order, and
    timers set with [setTimeout] fire.

    Two simplifications of the runtime.  The arrival of a response and the
    reading of its body ([await response.json()]) are one event: the hook
    neither reads nor writes its state between the two.  Timers carry
    their delay but may fire in any order, which allows every order the
    clock allows.  [getHealth], [query] and the [querying] flag take no
    part in the catalog and are left out. *)

From Stdlib Require Import String Ascii List ZArith Bool Lia PeanoNat.
From Stdlib Require Import DecimalString.
Import ListNotations.
Open Scope string_scope.
Open Scope Z_scope.

Set Implicit Arguments.

(** ** Data model (lines 4-31 of the source) *)

Inductive DocStatus := Processed | Processing | Failed.

(** [interface LightRAGDocument].  [metadata] is an open-ended record; its
    values are never inspected by the hook. *)
Record LightRAGDocument := {
  doc_id : string;
  content_summary : string;
  content_length : Z;
  doc_status : DocStatus;
  created_at : string;
  updated_at : string;
  doc_track_id : option string;
  chunks_count : Z;
  error_msg : option string;
  file_path : string;
  metadata : list (string * string)
}.

(** [interface LightRAGDocumentsResponse]: the three partitions.  A
    partition that is absent from the JSON body is [None]. *)
Record Statuses := {
  processed : option (list LightRAGDocument);
  processing : option (list LightRAGDocument);
  failed : option (list LightRAGDocument)
}.

Record LightRAGDocumentsResponse := { statuses : Statuses }.

Inductive UploadStatus := UpSuccess | UpDuplicated | UpError.

(** [interface LightRAGUploadResponse]. *)
Record LightRAGUploadResponse := {
  up_status : UploadStatus;
  message : string;
  track_id : option string
}.

(** The body of [GET /documents/track_status/<id>] as far as the hook reads
    it: [data.status_summary?.processed] and
    [data.status_summary?.processing]. *)
Record StatusSummary := {
  sum_processed : option Z;
  sum_processing : option Z
}.

Record TrackStatusResponse := { status_summary : option StatusSummary }.

(** The part of a browser [File] that matters here. *)
Record File := { name : string; content : string }.

(** ** JavaScript values the hook relies on *)

(** A thrown value: [name] and [message] of an [Error] object. *)
Record JsError := MkError { err_name : string; err_message : string }.

(** [`${error}`], that is [Error.prototype.toString]. *)
Definition error_to_string (e : JsError) : string :=
  err_name e ++ ": " ++ err_message e.

(** [new Error(msg)]. *)
Definition new_Error (msg : string) : JsError := MkError "Error" msg.

(** [x || []] on an optional array. *)
Definition or_empty {A} (o : option (list A)) : list A :=
  match o with Some l => l | None => [] end.

(** [x > 0] on an optional number: [undefined > 0] is [false]. *)
Definition js_positive (o : option Z) : bool :=
  match o with Some n => 0 <? n | None => false end.

(** Truthiness of an optional number: [undefined] and [0] are falsy. *)
Definition js_truthy_num (o : option Z) : bool :=
  match o with Some n => negb (n =? 0) | None => false end.

(** Truthiness of an optional string: [undefined] and [""] are falsy. *)
Definition js_truthy_str (o : option string) : option string :=
  match o with
  | Some s => if String.eqb s "" then None else Some s
  | None => None
  end.

(** ** The transport: what [await fetch(...)] and [response.json()] give

    [Rejected e]: the [fetch] promise rejects (network failure).
    [Responded ok statusText body]: a response arrived; [ok] is
    [response.ok], and [body] is the outcome of [await response.json()]
    ([inl] when the body is not the JSON the hook expects). *)
Inductive FetchResult (A : Type) :=
| Rejected (e : JsError)
| Responded (ok : bool) (statusText : string) (body : JsError + A).
Arguments Rejected {A} e.
Arguments Responded {A} ok statusText body.

Inductive Method := GET | POST | DELETE.

Inductive ReqBody :=
| NoBody
| FormData (file : File)                              (* formData.append("file", file) *)
| TextPayload (text filename : string)                 (* JSON.stringify({text, filename}) *)
| DeletePayload (doc_ids : list string) (delete_file : bool).

(** A request descriptor.  [path] is the path below
    [window.location.origin]. *)
Record Request := { method : Method; path : string; body : ReqBody }.

(** ** Effects other than state: toasts, timers, promise outcomes *)

Inductive Toast :=
| ToastError (msg : string)
| ToastWarning (msg : string)
| ToastSuccess (msg : string).

(** The callbacks handed to [setTimeout]. *)
Inductive Task :=
| TaskRefresh                                   (* () => listDocuments() *)
| TaskCheck (trackId : string) (maxAttempts : Z). (* () => checkUploadComplete(trackId, maxAttempts) *)

(** What a call made by the user interface finally gets back. *)
Inductive Ret :=
| RetDocuments (docs : list LightRAGDocument)
| RetUpload (result : option LightRAGUploadResponse)   (* [None] is [null] *)
| RetBool (b : bool).

(** How the promise of a call settles. *)
Inductive Outcome :=
| Fulfilled (v : Ret)
| RejectedWith (e : JsError).

(** Who is waiting for a [listDocuments()] to return. *)
Inductive ListCaller :=
| ByCaller                                   (* the user interface *)
| ByTimer                                    (* a [setTimeout] callback; the result is dropped *)
| InUpload (result : LightRAGUploadResponse) (* line 215 / line 275 *)
| InCheck.                                   (* line 175 / line 182 *)

(** The rest of a suspended function, waiting for an answer. *)
Inductive Pending :=
| AwaitDocuments (caller : ListCaller)
| AwaitTrackStatus (trackId : string) (maxAttempts : Z)
| AwaitUploadFile (file : File)
| AwaitUploadText (filename : string)
| AwaitDelete
| AwaitClear.

(** ** The state: the hook's React state and the runtime around it *)

Record World := {
  (* useState cells, lines 56-61 *)
  documents : list LightRAGDocument;
  documentsLoading : bool;
  uploading : bool;
  processingDocuments : list string;
  updateTrigger : Z;
  (* runtime *)
  toasts : list Toast;                 (* in the order shown *)
  timers : list (Z * Task);            (* delay in ms, callback *)
  inflight : list (nat * Pending);     (* outstanding requests *)
  sent : list Request;                 (* every request issued, in order *)
  settled : list Outcome;              (* results handed back to the user interface *)
  nextReq : nat                        (* requests are numbered in start order *)
}.

(** The state of a freshly mounted hook. *)
Definition init_world : World :=
  {| documents := []; documentsLoading := false; uploading := false;
     processingDocuments := []; updateTrigger := 0;
     toasts := []; timers := []; inflight := []; sent := []; settled := [];
     nextReq := 0%nat |}.

Definition Act := World -> World.

Definition seq (a b : Act) : Act := fun w => b (a w).
Notation "a ;; b" := (seq a b) (at level 61, left associativity).

Definition skip : Act := fun w => w.

Definition setDocuments (v : list LightRAGDocument) : Act := fun w =>
  {| documents := v; documentsLoading := documentsLoading w;
     uploading := uploading w; processingDocuments := processingDocuments w;
     updateTrigger := updateTrigger w; toasts := toasts w; timers := timers w;
     inflight := inflight w; sent := sent w; settled := settled w;
     nextReq := nextReq w |}.

Definition setDocumentsLoading (v : bool) : Act := fun w =>
  {| documents := documents w; documentsLoading := v;
     uploading := uploading w; processingDocuments := processingDocuments w;
     updateTrigger := updateTrigger w; toasts := toasts w; timers := timers w;
     inflight := inflight w; sent := sent w; settled := settled w;
     nextReq := nextReq w |}.

Definition setUploading (v : bool) : Act := fun w =>
  {| documents := documents w; documentsLoading := documentsLoading w;
     uploading := v; processingDocuments := processingDocuments w;
     updateTrigger := updateTrigger w; toasts := toasts w; timers := timers w;
     inflight := inflight w; sent := sent w; settled := settled w;
     nextReq := nextReq w |}.

Definition setProcessingDocuments (v : list string) : Act := fun w =>
  {| documents := documents w; documentsLoading := documentsLoading w;
     uploading := uploading w; processingDocuments := v;
     updateTrigger := updateTrigger w; toasts := toasts w; timers := timers w;
     inflight := inflight w; sent := sent w; settled := settled w;
     nextReq := nextReq w |}.

(** [setUpdateTrigger(prev => f(prev))]. *)
Definition setUpdateTrigger (f : Z -> Z) : Act := fun w =>
  {| documents := documents w; documentsLoading := documentsLoading w;
     uploading := uploading w; processingDocuments := processingDocuments w;
     updateTrigger := f (updateTrigger w); toasts := toasts w;
     timers := timers w; inflight := inflight w; sent := sent w;
     settled := settled w; nextReq := nextReq w |}.

Definition set_toasts (v : list Toast) : Act := fun w =>
  {| documents := documents w; documentsLoading := documentsLoading w;
     uploading := uploading w; processingDocuments := processingDocuments w;
     updateTrigger := updateTrigger w; toasts := v; timers := timers w;
     inflight := inflight w; sent := sent w; settled := settled w;
     nextReq := nextReq w |}.

Definition set_timers (v : list (Z * Task)) : Act := fun w =>
  {| documents := documents w; documentsLoading := documentsLoading w;
     uploading := uploading w; processingDocuments := processingDocuments w;
     updateTrigger := updateTrigger w; toasts := toasts w; timers := v;
     inflight := inflight w; sent := sent w; settled := settled w;
     nextReq := nextReq w |}.

Definition set_inflight (v : list (nat * Pending)) : Act := fun w =>
  {| documents := documents w; documentsLoading := documentsLoading w;
     uploading := uploading w; processingDocuments := processingDocuments w;
     updateTrigger := updateTrigger w; toasts := toasts w; timers := timers w;
     inflight := v; sent := sent w; settled := settled w;
     nextReq := nextReq w |}.

Definition set_sent (v : list Request) : Act := fun w =>
  {| documents := documents w; documentsLoading := documentsLoading w;
     uploading := uploading w; processingDocuments := processingDocuments w;
     updateTrigger := updateTrigger w; toasts := toasts w; timers := timers w;
     inflight := inflight w; sent := v; settled := settled w;
     nextReq := nextReq w |}.

Definition set_settled (v : list Outcome) : Act := fun w =>
  {| documents := documents w; documentsLoading := documentsLoading w;
     uploading := uploading w; processingDocuments := processingDocuments w;
     updateTrigger := updateTrigger w; toasts := toasts w; timers := timers w;
     inflight := inflight w; sent := sent w; settled := v;
     nextReq := nextReq w |}.

Definition set_nextReq (v : nat) : Act := fun w =>
  {| documents := documents w; documentsLoading := documentsLoading w;
     uploading := uploading w; processingDocuments := processingDocuments w;
     updateTrigger := updateTrigger w; toasts := toasts w; timers := timers w;
     inflight := inflight w; sent := sent w; settled := settled w;
     nextReq := v |}.

(** [toast.error], [toast.warning], [toast.success]. *)
Definition toast (t : Toast) : Act := fun w => set_toasts (toasts w ++ [t]) w.

(** [setTimeout(task, delay)]. *)
Definition setTimeout (task : Task) (delay : Z) : Act := fun w =>
  set_timers (timers w ++ [(delay, task)]) w.

(** [return v] of a call made by the user interface. *)
Definition settle (o : Outcome) : Act := fun w =>
  set_settled (settled w ++ [o]) w.

(** [await fetch(...)]: the request goes out and the function suspends;
    [k] is what remains of it. *)
Definition fetch (r : Request) (k : Pending) : Act := fun w =>
  (set_sent (sent w ++ [r]) ;;
   set_inflight (inflight w ++ [(nextReq w, k)]) ;;
   set_nextReq (S (nextReq w))) w.

(** ** The hook's functions *)

Definition documents_path : string := "/api/rag/documents".

(** The request of lines 94-101. *)
Definition refresh_request : Request :=
  {| method := GET; path := documents_path; body := NoBody |}.

(** *** [listDocuments] (lines 89-151) *)

(** Up to [await fetch(url, ...)] (lines 90-101). *)
Definition listDocuments (caller : ListCaller) : Act :=
  setDocumentsLoading true ;;
  fetch refresh_request (AwaitDocuments caller).

(** Lines 107-114: what the [try] block has in hand after the response,
    or the error it throws. *)
Definition documents_or_throw (r : FetchResult LightRAGDocumentsResponse)
  : JsError + LightRAGDocumentsResponse :=
  match r with
  | Rejected e => inl e
  | Responded false statusText _ =>
      inl (new_Error ("Failed to fetch documents: " ++ statusText))
  | Responded true _ parsed => parsed
  end.

(** Lines 120-124. *)
Definition allDocs (data : LightRAGDocumentsResponse) : list LightRAGDocument :=
  or_empty (processed (statuses data)) ++
  or_empty (processing (statuses data)) ++
  or_empty (failed (statuses data)).

(** Line 135. *)
Definition currentProcessing (data : LightRAGDocumentsResponse) : list string :=
  map doc_id (or_empty (processing (statuses data))).

(** From the answer to [return] (lines 103-150): the value returned and
    the state after the [finally] block. *)
Definition listDocuments_resume (r : FetchResult LightRAGDocumentsResponse)
    (w : World) : list LightRAGDocument * World :=
  let '(ret, w1) :=
    match documents_or_throw r with
    | inr data =>
        (allDocs data,
         (setProcessingDocuments (currentProcessing data) ;;
          setDocuments (allDocs data) ;;
          setUpdateTrigger (fun prev => prev + 1)) w)
    | inl e =>
        ([], toast (ToastError ("Failed to fetch documents: " ++ err_message e)) w)
    end in
  (ret, setDocumentsLoading false w1).

(** *** [checkUploadComplete] (lines 154-187) *)

Definition track_status_path (trackId : string) : string :=
  "/documents/track_status/" ++ trackId.

(** Up to [await fetch(url.toString(), ...)] (lines 156-163). *)
Definition checkUploadComplete (trackId : string) (maxAttempts : Z) : Act :=
  fetch {| method := GET; path := track_status_path trackId; body := NoBody |}
        (AwaitTrackStatus trackId maxAttempts).

(** Line 170. *)
Definition isComplete (data : TrackStatusResponse) : bool :=
  match status_summary data with
  | Some s => js_positive (sum_processed s) && negb (js_truthy_num (sum_processing s))
  | None => false
  end.

(** Line 171. *)
Definition isStillProcessing (data : TrackStatusResponse) : bool :=
  match status_summary data with
  | Some s => js_positive (sum_processing s)
  | None => false
  end.

(** Lines 165-186. *)
Definition checkUploadComplete_resume (trackId : string) (maxAttempts : Z)
    (r : FetchResult TrackStatusResponse) : Act :=
  match r with
  | Rejected _ => skip                        (* catch: console.error only *)
  | Responded false _ _ => skip               (* if (!response.ok) return; *)
  | Responded true _ (inl _) => skip          (* catch: console.error only *)
  | Responded true _ (inr data) =>
      if isComplete data then listDocuments InCheck
      else if isStillProcessing data && (0 <? maxAttempts) then
        setTimeout (TaskCheck trackId (maxAttempts - 1)) 2000
      else listDocuments InCheck
  end.

(** The default value of [maxAttempts]. *)
Definition default_maxAttempts : Z := 10.

(** *** [uploadFile] (lines 190-242) and [uploadText] (lines 245-299) *)

(** Lines 202-206 and 262-266; [what] is ["Upload failed: "] or
    ["Text upload failed: "]. *)
Definition result_or_throw (what : string)
    (r : FetchResult LightRAGUploadResponse) : JsError + LightRAGUploadResponse :=
  match r with
  | Rejected e => inl e
  | Responded false statusText _ => inl (new_Error (what ++ statusText))
  | Responded true _ parsed => parsed
  end.

(** Up to [await fetch(url, ...)] (lines 191-200). *)
Definition uploadFile (file : File) : Act :=
  setUploading true ;;
  fetch {| method := POST; path := "/api/rag/documents/upload"; body := FormData file |}
        (AwaitUploadFile file).

(** From the answer to the first [await listDocuments()] or to [return]
    (lines 202-241). *)
Definition uploadFile_resume (file : File)
    (r : FetchResult LightRAGUploadResponse) : Act :=
  match result_or_throw "Upload failed: " r with
  | inr result =>
      match up_status result with
      | UpSuccess => listDocuments (InUpload result)
      | UpDuplicated =>
          toast (ToastWarning (message result)) ;;
          settle (Fulfilled (RetUpload (Some result))) ;;
          setUploading false
      | UpError =>
          settle (Fulfilled (RetUpload (Some result))) ;;
          setUploading false
      end
  | inl e =>
      toast (ToastError ("Failed to upload file: " ++ error_to_string e)) ;;
      settle (Fulfilled (RetUpload None)) ;;
      setUploading false
  end.

(** After the first [await listDocuments()] of an upload: lines 217-234 and
    277-291, the same statements in both functions. *)
Definition upload_after_refresh (result : LightRAGUploadResponse) : Act :=
  setTimeout TaskRefresh 1000 ;;
  match js_truthy_str (track_id result) with
  | Some tid => setTimeout (TaskCheck tid default_maxAttempts) 3000
  | None => skip
  end ;;
  settle (Fulfilled (RetUpload (Some result))) ;;
  setUploading false.

Fixpoint replace_colons (s : string) : string :=
  match s with
  | EmptyString => EmptyString
  | String c s' =>
      String (if Ascii.eqb c ":"%char then "-"%char else c) (replace_colons s')
  end.

(** Line 250; [now] is [new Date().toISOString()]. *)
Definition payload_filename (filename : option string) (now : string) : string :=
  match js_truthy_str filename with
  | Some f => f
  | None => "text_document_" ++ replace_colons (substring 0 19 now) ++ ".txt"
  end.

(** Up to [await fetch(url, ...)] (lines 246-260). *)
Definition uploadText (text : string) (filename : option string) (now : string) : Act :=
  setUploading true ;;
  fetch {| method := POST; path := "/api/rag/documents/text";
           body := TextPayload text (payload_filename filename now) |}
        (AwaitUploadText (payload_filename filename now)).

(** Lines 262-298. *)
Definition uploadText_resume (filename : string)
    (r : FetchResult LightRAGUploadResponse) : Act :=
  match result_or_throw "Text upload failed: " r with
  | inr result =>
      match up_status result with
      | UpSuccess => listDocuments (InUpload result)
      | UpDuplicated | UpError =>
          settle (Fulfilled (RetUpload (Some result))) ;;
          setUploading false
      end
  | inl e =>
      toast (ToastError ("Failed to upload text: " ++ error_to_string e)) ;;
      settle (Fulfilled (RetUpload None)) ;;
      setUploading false
  end.

(** *** [deleteDocument] (lines 302-331) *)

(** Up to [await fetch(url.toString(), ...)] (lines 304-316). *)
Definition deleteDocument (documentId : string) : Act :=
  fetch {| method := DELETE; path := "/documents/delete_document";
           body := DeletePayload [documentId] true |}
        AwaitDelete.

(** Lines 318-330 and 377-388: the answer to a request whose body is not
    read. *)
Definition ok_or_throw (what : string) (r : FetchResult unit) : option JsError :=
  match r with
  | Rejected e => Some e
  | Responded false statusText _ => Some (new_Error (what ++ statusText))
  | Responded true _ _ => None
  end.

Definition deleteDocument_resume (r : FetchResult unit) : Act :=
  match ok_or_throw "Delete failed: " r with
  | None =>
      toast (ToastSuccess "Document deletion initiated. Processing in background...") ;;
      setTimeout TaskRefresh 1000 ;;
      settle (Fulfilled (RetBool true))
  | Some e =>
      toast (ToastError ("Failed to delete document: " ++ error_to_string e)) ;;
      settle (Fulfilled (RetBool false))
  end.

(** *** [clearDocuments] (lines 370-389) *)

(** Up to [await fetch(url, { method: "DELETE" })] (lines 372-375). *)
Definition clearDocuments : Act :=
  fetch {| method := DELETE; path := documents_path; body := NoBody |} AwaitClear.

(** Lines 377-388. *)
Definition clearDocuments_resume (r : FetchResult unit) : Act :=
  match ok_or_throw "Clear failed: " r with
  | None =>
      toast (ToastSuccess "All documents cleared successfully") ;;
      setDocuments [] ;;
      settle (Fulfilled (RetBool true))
  | Some e =>
      toast (ToastError ("Failed to clear documents: " ++ error_to_string e)) ;;
      settle (Fulfilled (RetBool false))
  end.

(** ** The event loop *)

(** The operations the hook returns (lines 402-409). *)
Inductive Op :=
| OpListDocuments
| OpUploadFile (file : File)
| OpUploadText (text : string) (filename : option string) (now : string)
| OpDeleteDocument (documentId : string)
| OpClearDocuments.

(** An answer, by the kind of request it answers. *)
Inductive Arrival :=
| ADocuments (r : FetchResult LightRAGDocumentsResponse)
| ATrack (r : FetchResult TrackStatusResponse)
| AUpload (r : FetchResult LightRAGUploadResponse)
| AAck (r : FetchResult unit).

Inductive Event :=
| Call (op : Op)                 (* the user interface calls an operation *)
| Arrive (rid : nat) (a : Arrival) (* the answer to request [rid] arrives *)
| Fire (k : nat).                (* the [k]-th timer set and not yet run fires *)

Definition call (op : Op) : Act :=
  match op with
  | OpListDocuments => listDocuments ByCaller
  | OpUploadFile file => uploadFile file
  | OpUploadText text filename now => uploadText text filename now
  | OpDeleteDocument documentId => deleteDocument documentId
  | OpClearDocuments => clearDocuments
  end.

Fixpoint lookup_req (rid : nat) (l : list (nat * Pending)) : option Pending :=
  match l with
  | [] => None
  | (i, p) :: l' => if Nat.eqb i rid then Some p else lookup_req rid l'
  end.

Fixpoint remove_req (rid : nat) (l : list (nat * Pending)) : list (nat * Pending) :=
  match l with
  | [] => []
  | (i, p) :: l' => if Nat.eqb i rid then l' else (i, p) :: remove_req rid l'
  end.

(** What runs once [listDocuments()] has returned [ret] to whoever awaited
    it. *)
Definition after_listDocuments (caller : ListCaller)
    (ret : list LightRAGDocument) : Act :=
  match caller with
  | ByCaller => settle (Fulfilled (RetDocuments ret))
  | ByTimer => skip
  | InUpload result => upload_after_refresh result
  | InCheck => skip
  end.

(** The suspended function [p] resumes with the answer [a].  An answer of
    the wrong kind for [p] is never delivered; [None] says so. *)
Definition resume (p : Pending) (a : Arrival) : option Act :=
  match p, a with
  | AwaitDocuments caller, ADocuments r =>
      Some (fun w =>
              let '(ret, w') := listDocuments_resume r w in
              after_listDocuments caller ret w')
  | AwaitTrackStatus trackId maxAttempts, ATrack r =>
      Some (checkUploadComplete_resume trackId maxAttempts r)
  | AwaitUploadFile file, AUpload r => Some (uploadFile_resume file r)
  | AwaitUploadText filename, AUpload r => Some (uploadText_resume filename r)
  | AwaitDelete, AAck r => Some (deleteDocument_resume r)
  | AwaitClear, AAck r => Some (clearDocuments_resume r)
  | _, _ => None
  end.

Definition run_task (t : Task) : Act :=
  match t with
  | TaskRefresh => listDocuments ByTimer
  | TaskCheck trackId maxAttempts => checkUploadComplete trackId maxAttempts
  end.

Fixpoint remove_nth {A} (k : nat) (l : list A) : list A :=
  match l, k with
  | [], _ => []
  | _ :: l', O => l'
  | x :: l', S k' => x :: remove_nth k' l'
  end.

Definition step (w : World) (ev : Event) : World :=
  match ev with
  | Call op => call op w
  | Arrive rid a =>
      match lookup_req rid (inflight w) with
      | Some p =>
          match resume p a with
          | Some act => act (set_inflight (remove_req rid (inflight w)) w)
          | None => w
          end
      | None => w
      end
  | Fire k =>
      match nth_error (timers w) k with
      | Some (_, t) => run_task t (set_timers (remove_nth k (timers w)) w)
      | None => w
      end
  end.

Definition run (w : World) (evs : list Event) : World := fold_left step evs w.

(** ** Vocabulary for the statements *)

Open Scope list_scope.

(** A fetch fails: the promise rejects (network error) or the response has
    a non-success status. *)
Definition fetch_fails {A} (r : FetchResult A) : bool :=
  match r with
  | Rejected _ => true
  | Responded ok _ _ => negb ok
  end.

(** The server's answer when it knows no document. *)
Definition empty_listing : LightRAGDocumentsResponse :=
  {| statuses := {| processed := Some []; processing := None; failed := None |} |}.

Definition is_refresh (r : Request) : bool :=
  match method r with
  | GET => String.eqb (path r) documents_path
  | _ => false
  end.

Definition is_status_query (trackId : string) (r : Request) : bool :=
  String.eqb (path r) (track_status_path trackId).

Definition count_refreshes (l : list Request) : nat :=
  length (filter is_refresh l).

Definition count_status_queries (trackId : string) (l : list Request) : nat :=
  length (filter (is_status_query trackId) l).

(** The requests that delete one document ask for the stored content to be
    deleted too. *)
Definition deletes_content (r : Request) : Prop :=
  match body r with
  | DeletePayload _ delete_file => delete_file = true
  | _ => True
  end.

(** The events that write the catalog: a list answer that parses, and the
    acknowledgement of a destructive request. *)
Definition replaces_catalog (ev : Event) : bool :=
  match ev with
  | Arrive _ (ADocuments (Responded true _ (inr _))) => true
  | Arrive _ (AAck (Responded true _ _)) => true
  | _ => false
  end.

(** *** Sample answers *)

(** A document of the catalog. *)
Definition sample_doc (id : string) (st : DocStatus) (chunks : Z) : LightRAGDocument :=
  {| doc_id := id; content_summary := "hello world"; content_length := 11;
     doc_status := st; created_at := "2025-01-01T00:00:00";
     updated_at := "2025-01-01T00:00:05"; doc_track_id := None;
     chunks_count := chunks; error_msg := None; file_path := "note.txt";
     metadata := [] |}.

Definition listing_old : LightRAGDocumentsResponse :=
  {| statuses := {| processed := Some [];
                    processing := Some [sample_doc "doc-1" Processing 0];
                    failed := None |} |}.

Definition listing_new : LightRAGDocumentsResponse :=
  {| statuses := {| processed := Some [sample_doc "doc-1" Processed 1];
                    processing := None;
                    failed := None |} |}.

Definition ok_documents (data : LightRAGDocumentsResponse) : Arrival :=
  ADocuments (Responded true "OK" (inr data)).

(** The catalog the spec asks for, in its words: the response of the
    completed request with the latest start time.  Requests are numbered
    in the order they start, so that is the parsed list answer with the
    largest request number. *)
Definition later_start (best : option (nat * LightRAGDocumentsResponse))
    (ev : Event) : option (nat * LightRAGDocumentsResponse) :=
  match ev with
  | Arrive rid (ADocuments (Responded true _ (inr data))) =>
      match best with
      | Some (rid0, _) => if Nat.ltb rid0 rid then Some (rid, data) else best
      | None => Some (rid, data)
      end
  | _ => best
  end.

Definition catalog_by_start_time (evs : list Event) : list LightRAGDocument :=
  match fold_left later_start evs None with
  | Some (_, data) => allDocs data
  | None => []
  end.

(** Two overlapping refreshes, answered in the reverse order. *)
Definition crossed_refreshes : list Event :=
  [Call OpListDocuments;                      (* request 0 starts *)
   Call OpListDocuments;                      (* request 1 starts *)
   Arrive 1 (ok_documents listing_new);       (* the later request is answered first *)
   Arrive 0 (ok_documents listing_old)].      (* the earlier answer arrives last *)

(** A status answer that reports documents still being processed. *)
Definition still_processing (r : FetchResult TrackStatusResponse) : bool :=
  match r with
  | Responded true _ (inr data) => isStillProcessing data
  | _ => false
  end.

(** A status answer that reports at least one processed document and none
    being processed. *)
Definition terminal_success (r : FetchResult TrackStatusResponse) : bool :=
  match r with
  | Responded true _ (inr data) =>
      match status_summary data with
      | Some s =>
          match sum_processed s, sum_processing s with
          | Some done, Some busy => (0 <? done) && (busy =? 0)
          | Some done, None => 0 <? done
          | None, _ => false
          end
      | None => false
      end
  | _ => false
  end.

(** The schedule of one polling sequence whose first status query is
    request [rid]: each answer arrives, then the timer the answer may have
    set fires and sends the next query. *)
Fixpoint poll_schedule (rid : nat) (rs : list (FetchResult TrackStatusResponse))
  : list Event :=
  match rs with
  | [] => []
  | r :: rs' => Arrive rid (ATrack r) :: Fire 0 :: poll_schedule (S rid) rs'
  end.

(** Nothing is pending: no request in flight and no timer set. *)
Definition quiet (w : World) : Prop := inflight w = [] /\ timers w = [].

Definition track_done : FetchResult TrackStatusResponse :=
  Responded true "OK"
    (inr {| status_summary :=
              Some {| sum_processed := Some 1; sum_processing := None |} |}).

Definition track_busy : FetchResult TrackStatusResponse :=
  Responded true "OK"
    (inr {| status_summary :=
              Some {| sum_processed := None; sum_processing := Some 1 |} |}).

Definition status_query (trackId : string) : Request :=
  {| method := GET; path := track_status_path trackId; body := NoBody |}.

(** The state once one more status query for [trackId] has been sent and
    its answer consumed. *)
Definition answered (trackId : string) : Act := fun w =>
  set_nextReq (S (nextReq w)) (set_sent (sent w ++ [status_query trackId]) w).

Fixpoint answered_n (trackId : string) (k : nat) (w : World) : World :=
  match k with
  | O => w
  | S k' => answered_n trackId k' (answered trackId w)
  end.

Definition track_http_500 : FetchResult TrackStatusResponse :=
  Responded false "Internal Server Error"
    (inl (MkError "SyntaxError" "Unexpected token")).

Definition sample_file : File := {| name := "report.pdf"; content := "%PDF-1.7" |}.

Definition upload_http_500 : FetchResult LightRAGUploadResponse :=
  Responded false "Internal Server Error"
    (inl (MkError "SyntaxError" "Unexpected token")).

(** The caller receives an error: the promise of the call is rejected. *)
Definition receives_error (w : World) : Prop :=
  exists e, In (RejectedWith e) (settled w).

Definition duplicate_response : LightRAGUploadResponse :=
  {| up_status := UpDuplicated;
     message := "File 'note.txt' already exists in the input directory.";
     track_id := None |}.

Definition duplicate_answer : Arrival :=
  AUpload (Responded true "OK" (inr duplicate_response)).

(** In the spec's words: the identifiers of the catalog entries whose
    status is non-terminal. *)
Definition non_terminal (d : LightRAGDocument) : bool :=
  match doc_status d with
  | Processing => true
  | Processed | Failed => false
  end.

Definition indicator_of_catalog (docs : list LightRAGDocument) : list string :=
  map doc_id (filter non_terminal docs).

(** Every document of a listing sits in the partition of its status. *)
Definition partitions_agree (data : LightRAGDocumentsResponse) : Prop :=
  Forall (fun d => doc_status d = Processed) (or_empty (processed (statuses data))) /\
  Forall (fun d => doc_status d = Processing) (or_empty (processing (statuses data))) /\
  Forall (fun d => doc_status d = Failed) (or_empty (failed (statuses data))).

(** A refresh that shows one document being processed, then a clear that
    the server acknowledges. *)
Definition refresh_then_clear : list Event :=
  [Call OpListDocuments;
   Arrive 0 (ok_documents listing_old);
   Call OpClearDocuments;
   Arrive 1 (AAck (Responded true "OK" (inr tt)))].

(** The scenario of a text note: accepted with handle ["t1"], invisible to
    the immediate refresh, visible as processing to the delayed one, busy
    for three status queries, then done. *)
Definition accepted_t1 : LightRAGUploadResponse :=
  {| up_status := UpSuccess; message := "accepted"; track_id := Some "t1" |}.

Definition note_scenario : list Event :=
  [Call (OpUploadText "hello world" (Some "note.txt") "2025-01-01T00:00:00.000Z");
   Arrive 0 (AUpload (Responded true "OK" (inr accepted_t1)));
   Arrive 1 (ok_documents empty_listing);      (* the immediate refresh *)
   Fire 0;                                     (* after 1 s *)
   Arrive 2 (ok_documents listing_old);
   Fire 0;                                     (* after 3 s: first status query *)
   Arrive 3 (ATrack track_busy); Fire 0;
   Arrive 4 (ATrack track_busy); Fire 0;
   Arrive 5 (ATrack track_busy); Fire 0;
   Arrive 6 (ATrack track_done);
   Arrive 7 (ok_documents listing_new)].       (* the final refresh *)

(** ** Vocabulary for the further properties *)

(** The listing that the event [ev] installs in the state [w], if any: a
    list answer that parses, delivered to a [listDocuments] in flight. *)
Definition installs (w : World) (ev : Event) : option LightRAGDocumentsResponse :=
  match ev with
  | Arrive rid (ADocuments (Responded true _ (inr data))) =>
      match lookup_req rid (inflight w) with
      | Some (AwaitDocuments _) => Some data
      | _ => None
      end
  | _ => None
  end.

(** The event [ev] is a success answer delivered to a [clearDocuments] in
    flight. *)
Definition clears (w : World) (ev : Event) : bool :=
  match ev with
  | Arrive rid (AAck (Responded true _ _)) =>
      match lookup_req rid (inflight w) with
      | Some AwaitClear => true
      | _ => false
      end
  | _ => false
  end.

(** The number of listings installed along a run. *)
Fixpoint count_installs (w : World) (evs : list Event) : nat :=
  match evs with
  | [] => O
  | ev :: evs' =>
      ((match installs w ev with Some _ => 1 | None => 0 end)
       + count_installs (step w ev) evs')%nat
  end.

(** The indicator set is the non-terminal part of the catalog. *)
Definition indicator_ok (w : World) : Prop :=
  processingDocuments w = indicator_of_catalog (documents w).

(** The listing of a list answer, when it parses, has every document in
    the partition of its status. *)
Definition well_formed_answer (ev : Event) : Prop :=
  match ev with
  | Arrive _ (ADocuments (Responded true _ (inr data))) => partitions_agree data
  | _ => True
  end.

Definition calls_clear (ev : Event) : bool :=
  match ev with
  | Call OpClearDocuments => true
  | _ => false
  end.

Definition not_clear (ip : nat * Pending) : Prop := snd ip <> AwaitClear.

(** No [clearDocuments] is waiting for its answer. *)
Definition no_clear_pending (w : World) : Prop := Forall not_clear (inflight w).

(** An upload, of a file or of text, is waiting for its answer. *)
Definition is_upload (p : Pending) : bool :=
  match p with
  | AwaitUploadFile _ | AwaitUploadText _ => true
  | _ => false
  end.

(** The server accepted the submission: a parsed answer with status
    ["success"]. *)
Definition accepted (r : FetchResult LightRAGUploadResponse)
  : option LightRAGUploadResponse :=
  match r with
  | Responded true _ (inr result) =>
      match up_status result with
      | UpSuccess => Some result
      | _ => None
      end
  | _ => None
  end.

(** The timers an accepted upload sets once its immediate refresh has
    returned. *)
Definition upload_timers (result : LightRAGUploadResponse) : list (Z * Task) :=
  (1000, TaskRefresh) ::
  match js_truthy_str (track_id result) with
  | Some tid => [(3000, TaskCheck tid 10)]
  | None => []
  end.

Definition accepted_without_handle : LightRAGUploadResponse :=
  {| up_status := UpSuccess; message := "accepted"; track_id := Some "" |}.

(** A delete that the server acknowledges, the refresh it schedules, and
    the listing [data] that answers that refresh.  [rid] is the number of
    the delete request. *)
Definition delete_then_refresh (documentId : string) (rid : nat)
    (data : LightRAGDocumentsResponse) : list Event :=
  [Call (OpDeleteDocument documentId);
   Arrive rid (AAck (Responded true "OK" (inr tt)));
   Fire 0;
   Arrive (S rid) (ok_documents data)].

Fixpoint contains_colon (s : string) : bool :=
  match s with
  | EmptyString => false
  | String c s' => Ascii.eqb c ":"%char || contains_colon s'
  end.

(** The answer reports no processed and no processing document: the
    summary is missing, or both counts are missing or not positive. *)
Definition nothing_to_report (data : TrackStatusResponse) : bool :=
  match status_summary data with
  | Some s => negb (js_positive (sum_processed s)) && negb (js_positive (sum_processing s))
  | None => true
  end.

Definition track_only_failed : FetchResult TrackStatusResponse :=
  Responded true "OK"
    (inr {| status_summary :=
              Some {| sum_processed := Some 0; sum_processing := None |} |}).

(** The sequence is over: no timer is set and at most its final refresh
    is in flight. *)
Definition sequence_over (w : World) : Prop :=
  timers w = [] /\
  (inflight w = [] \/ exists rid, inflight w = [(rid, AwaitDocuments InCheck)]).

(** ** Querying ([query], lines 334-367, and its caller) *)

Inductive QueryMode := ModeNaive | ModeLocal | ModeGlobal | ModeHybrid.

(** [interface LightRAGQueryResponse]. *)
Record LightRAGQueryResponse := { response : string }.

(** The payload of [POST /api/rag/query]; the mode defaults to
    ["hybrid"]. *)
Definition query_payload (queryText : string) (mode : option QueryMode)
  : string * QueryMode :=
  (queryText, match mode with Some m => m | None => ModeHybrid end).

(** Lines 354-358: the parsed answer, or the error thrown. *)
Definition query_result_or_throw (r : FetchResult LightRAGQueryResponse)
  : JsError + LightRAGQueryResponse :=
  match r with
  | Rejected e => inl e
  | Responded false statusText _ => inl (new_Error ("Query failed: " ++ statusText))
  | Responded true _ parsed => parsed
  end.

(** [query], from the answer to [return] (lines 354-366): the value
    returned, the toasts shown, and the [querying] flag after the
    [finally] block. *)
Definition query_resume (r : FetchResult LightRAGQueryResponse)
  : option string * list Toast * bool :=
  match query_result_or_throw r with
  | inr result => (Some (response result), [], false)
  | inl e => (None, [ToastError ("Query failed: " ++ error_to_string e)], false)
  end.

(** [handleQuery] of the interface, after [await query(...)]: the answer
    on display, given the one displayed before
    ([if (result) setQueryResult(result)]). *)
Definition handleQuery_resume (result : option string) (queryResult : string) : string :=
  match js_truthy_str result with
  | Some text => text
  | None => queryResult
  end.

(** ** Uploading a batch of files ([handleFileUpload] of the interface) *)

(** [`${n}`] for a count. *)
Definition nat_to_string (n : nat) : string :=
  NilZero.string_of_uint (Nat.to_uint n).

(** What the server answers while one file is uploaded: the answer to the
    upload request and, if the upload is accepted, the answer to the
    refresh that [uploadFile] awaits before it returns. *)
Record UploadAnswers := {
  upload_answer : FetchResult LightRAGUploadResponse;
  refresh_answer : FetchResult LightRAGDocumentsResponse
}.

(** The value the last call returned to the interface, read as an upload
    result. *)
Definition last_upload_result (w : World) : option LightRAGUploadResponse :=
  match last (settled w) (Fulfilled (RetUpload None)) with
  | Fulfilled (RetUpload result) => result
  | _ => None
  end.

(** [result?.status === "success"]. *)
Definition is_success (result : option LightRAGUploadResponse) : bool :=
  match result with
  | Some res => match up_status res with UpSuccess => true | _ => false end
  | None => false
  end.

(** [await uploadFile(file)], run to its return with nothing else
    happening meanwhile. *)
Definition upload_one (file : File) (a : UploadAnswers) (w : World) : World :=
  let w1 := step w (Call (OpUploadFile file)) in
  let w2 := step w1 (Arrive (nextReq w) (AUpload (upload_answer a))) in
  match accepted (upload_answer a) with
  | Some _ => step w2 (Arrive (S (nextReq w)) (ADocuments (refresh_answer a)))
  | None => w2
  end.

(** The loop of lines 78-84. *)
Fixpoint upload_loop (files : list (File * UploadAnswers)) (successCount : nat)
    (w : World) : nat * World :=
  match files with
  | [] => (successCount, w)
  | (file, a) :: rest =>
      let w' := upload_one file a w in
      upload_loop rest
        (if is_success (last_upload_result w') then S successCount else successCount)
        w'
  end.

(** [handleFileUpload] (lines 71-94) up to its [await listDocuments()]. *)
Definition handleFileUpload (files : list (File * UploadAnswers)) : Act := fun w =>
  match files with
  | [] => w
  | _ :: _ =>
      let '(successCount, w') := upload_loop files 0 w in
      if Nat.ltb 0 successCount then
        (toast (ToastSuccess
                  (nat_to_string successCount ++ " of " ++
                   nat_to_string (length files) ++
                   " files uploaded successfully. Processing in background...")) ;;
         listDocuments ByCaller) w'
      else w'
  end.

(** The number of files of a batch that the server accepts. *)
Definition count_accepted (files : list (File * UploadAnswers)) : nat :=
  length (filter (fun fa => match accepted (upload_answer (snd fa)) with
                            | Some _ => true
                            | None => false
                            end) files).

Definition two_file_batch : list (File * UploadAnswers) :=
  [(sample_file,
    {| upload_answer := Responded true "OK" (inr accepted_t1);
       refresh_answer := Responded true "OK" (inr empty_listing) |});
   (sample_file,
    {| upload_answer := upload_http_500;
       refresh_answer := Rejected (MkError "TypeError" "Failed to fetch") |})].

(** ** The proxy route ([proxyToRag], target of the request) *)









(** * Properties *)

(** Unfolding the hook's functions, but not the state setters: a field of
    the state after a chain of setters is then found by reduction, one
    setter at a time. *)
Ltac hook_unfold :=
  unfold step, call, resume, run_task, after_listDocuments,
    listDocuments_resume, checkUploadComplete_resume, uploadFile_resume,
    uploadText_resume, upload_after_refresh, deleteDocument_resume,
    clearDocuments_resume, documents_or_throw, result_or_throw, ok_or_throw
    in *.

Ltac hook := hook_unfold; cbn in *.

(** ** Refresh *)

(** Calling [listDocuments] touches neither the catalog nor the indicator
    set; it raises the loading flag and sends one request. *)
Lemma listDocuments_call_keeps_catalog (caller : ListCaller) (w : World) :
  documents (listDocuments caller w) = documents w /\
  processingDocuments (listDocuments caller w) = processingDocuments w /\
  sent (listDocuments caller w) =
    sent w ++ [refresh_request] /\
  inflight (listDocuments caller w) =
    inflight w ++ [(nextReq w, AwaitDocuments caller)].
Proof. hook. repeat split. Qed.

(** C9: when the list fetch fails (the promise rejects or the status is
    not a success), [listDocuments] leaves the catalog snapshot and the
    processing indicator set as they were and returns the empty list; a
    successful fetch of an empty listing returns the same value, so the
    return value alone does not tell the two apart.  The last part says
    that at the level of the event loop a caller from the user interface
    is handed exactly that empty list. *)
Theorem C9_failed_refresh_returns_empty
    (r : FetchResult LightRAGDocumentsResponse) (w : World)
    (Hfail : fetch_fails r = true) :
  fst (listDocuments_resume r w) = [] /\
  documents (snd (listDocuments_resume r w)) = documents w /\
  processingDocuments (snd (listDocuments_resume r w)) = processingDocuments w /\
  (forall statusText,
     fst (listDocuments_resume (Responded true statusText (inr empty_listing)) w)
     = fst (listDocuments_resume r w)) /\
  (forall rid,
     lookup_req rid (inflight w) = Some (AwaitDocuments ByCaller) ->
     settled (step w (Arrive rid (ADocuments r)))
     = settled w ++ [Fulfilled (RetDocuments [])]).
Proof.
  destruct r as [e | ok statusText parsed]; cbn in Hfail.
  - hook. repeat split. intros rid Hrid. rewrite Hrid. reflexivity.
  - destruct ok; [discriminate |].
    hook. repeat split. intros rid Hrid. rewrite Hrid. reflexivity.
Qed.

Lemma C9_failed_refresh_returns_empty_witness :
  fetch_fails (Responded false "Bad Gateway"
                 (inl (MkError "SyntaxError" "Unexpected token"))
               : FetchResult LightRAGDocumentsResponse) = true /\
  fst (listDocuments_resume
         (Responded false "Bad Gateway" (inl (MkError "SyntaxError" "Unexpected token")))
         (listDocuments ByCaller init_world)) = [] /\
  settled (step (listDocuments ByCaller init_world)
             (Arrive 0 (ADocuments
                (Responded false "Bad Gateway"
                   (inl (MkError "SyntaxError" "Unexpected token"))))))
  = settled (listDocuments ByCaller init_world) ++ [Fulfilled (RetDocuments [])].
Proof.
  destruct (@C9_failed_refresh_returns_empty
              (Responded false "Bad Gateway" (inl (MkError "SyntaxError" "Unexpected token")))
              (listDocuments ByCaller init_world) eq_refl)
    as (Hret & _ & _ & _ & Hcaller).
  split; [reflexivity | split; [exact Hret |]].
  exact (Hcaller 0%nat eq_refl).
Defined.

(** ** Clear *)

(** C7: [clearDocuments] sends the delete-all request without touching the
    state; when the answer is a success the catalog snapshot becomes
    empty, and when the request fails (rejected promise or non-success
    status) the snapshot is exactly what it was, the call reports [false]
    and an error toast is shown. *)
Theorem C7_clear_empties_only_on_success (w : World) (r : FetchResult unit) :
  documents (clearDocuments w) = documents w /\
  sent (clearDocuments w) =
    sent w ++ [{| method := DELETE; path := documents_path; body := NoBody |}] /\
  (if fetch_fails r
   then documents (clearDocuments_resume r w) = documents w /\
        processingDocuments (clearDocuments_resume r w) = processingDocuments w /\
        settled (clearDocuments_resume r w) = settled w ++ [Fulfilled (RetBool false)]
   else documents (clearDocuments_resume r w) = [] /\
        settled (clearDocuments_resume r w) = settled w ++ [Fulfilled (RetBool true)]).
Proof.
  split; [reflexivity | split; [reflexivity |]].
  destruct r as [e | [|] statusText parsed]; hook; repeat split.
Qed.

(** ** Remove *)

(** Every event appends to the log of requests, and what it appends asks
    for content deletion whenever it is a delete-document request. *)
Lemma step_sent (w : World) (ev : Event) :
  exists l, sent (step w ev) = sent w ++ l /\ Forall deletes_content l.
Proof.
  assert (Hnil : exists l, sent w = sent w ++ l /\ Forall deletes_content l)
    by (exists []; rewrite app_nil_r; auto).
  assert (Hone : forall m p b,
             deletes_content {| method := m; path := p; body := b |} ->
             exists l, sent w ++ [{| method := m; path := p; body := b |}]
                       = sent w ++ l /\ Forall deletes_content l)
    by (intros m p b Hb; eexists; split; [reflexivity | auto]).
  destruct ev as [op | rid a | k].
  - destruct op; hook; apply Hone; exact I || reflexivity.
  - unfold step. destruct (lookup_req rid (inflight w)) as [p |]; [| exact Hnil].
    destruct p as [caller | trackId maxAttempts | file | filename | |],
             a as [r | r | r | r]; cbn [resume]; try exact Hnil.
    + destruct r as [e | [|] st [e | data]], caller; hook; try exact Hnil;
        destruct (js_truthy_str (track_id result)); exact Hnil.
    + destruct r as [e | [|] st [e | data]]; hook; try exact Hnil.
      destruct (isComplete data); [apply Hone; exact I |].
      destruct (isStillProcessing data && (0 <? maxAttempts))%bool;
        hook; [exact Hnil | apply Hone; exact I].
    + destruct r as [e | [|] st [e | data]]; hook; try exact Hnil.
      destruct (up_status data); hook; try exact Hnil. apply Hone; exact I.
    + destruct r as [e | [|] st [e | data]]; hook; try exact Hnil.
      destruct (up_status data); hook; try exact Hnil. apply Hone; exact I.
    + destruct r as [e | [|] st parsed]; hook; exact Hnil.
    + destruct r as [e | [|] st parsed]; hook; exact Hnil.
  - unfold step. destruct (nth_error (timers w) k) as [[d t] |]; [| exact Hnil].
    destruct t; hook; apply Hone; exact I.
Qed.

Lemma run_sent_deletes_content (evs : list Event) (w : World) :
  Forall deletes_content (sent w) -> Forall deletes_content (sent (run w evs)).
Proof.
  revert w. induction evs as [| ev evs IH]; intros w Hw; [exact Hw |].
  change (run w (ev :: evs)) with (run (step w ev) evs). apply IH.
  destruct (step_sent w ev) as [l [-> Hl]]. apply Forall_app. auto.
Qed.

(** C10: [deleteDocument] always sends [delete_file: true] for the one
    identifier it is given, and in every run of the hook every
    delete-document request ever sent carries that flag: no operation
    deletes a catalog entry and keeps its stored content. *)
Theorem C10_delete_always_deletes_content :
  (forall (documentId : string) (w : World),
     sent (deleteDocument documentId w) =
       sent w ++ [{| method := DELETE; path := "/documents/delete_document";
                     body := DeletePayload [documentId] true |}]) /\
  (forall evs : list Event, Forall deletes_content (sent (run init_world evs))).
Proof.
  split; [reflexivity |].
  intro evs. apply run_sent_deletes_content. constructor.
Qed.

(** ** Interleaved refreshes *)

Lemma step_keeps_catalog (w : World) (ev : Event) :
  replaces_catalog ev = false ->
  documents (step w ev) = documents w /\
  processingDocuments (step w ev) = processingDocuments w.
Proof.
  intro Hev. destruct ev as [op | rid a | k].
  - destruct op; hook; auto.
  - unfold step. destruct (lookup_req rid (inflight w)) as [p |]; [| auto].
    destruct p as [caller | trackId maxAttempts | file | filename | |],
             a as [r | r | r | r]; cbn [resume]; auto.
    + destruct r as [e | [|] st [e | data]], caller; try discriminate; hook; auto;
        destruct (js_truthy_str (track_id result)); auto.
    + destruct r as [e | [|] st [e | data]]; hook; auto.
      destruct (isComplete data); auto.
      destruct (isStillProcessing data && (0 <? maxAttempts))%bool; auto.
    + destruct r as [e | [|] st [e | data]]; hook; auto.
      destruct (up_status data); auto.
    + destruct r as [e | [|] st [e | data]]; hook; auto.
      destruct (up_status data); auto.
    + destruct r as [e | [|] st parsed]; try discriminate; hook; auto.
    + destruct r as [e | [|] st parsed]; try discriminate; hook; auto.
  - unfold step. destruct (nth_error (timers w) k) as [[d t] |]; [| auto].
    destruct t; hook; auto.
Qed.

Lemma run_keeps_catalog (evs : list Event) (w : World) :
  forallb (fun ev => negb (replaces_catalog ev)) evs = true ->
  documents (run w evs) = documents w /\
  processingDocuments (run w evs) = processingDocuments w.
Proof.
  revert w. induction evs as [| ev evs IH]; intros w Hevs; [auto |].
  cbn [forallb] in Hevs. apply andb_true_iff in Hevs as [Hev Hevs].
  apply negb_true_iff in Hev.
  change (run w (ev :: evs)) with (run (step w ev) evs).
  destruct (IH (step w ev) Hevs) as [-> ->].
  apply step_keeps_catalog, Hev.
Qed.

(** A list answer that parses installs its own listing, whoever awaited
    it and whatever the state was. *)
Lemma list_answer_installs (w : World) (rid : nat) (caller : ListCaller)
    (statusText : string) (data : LightRAGDocumentsResponse) :
  lookup_req rid (inflight w) = Some (AwaitDocuments caller) ->
  documents (step w (Arrive rid (ADocuments (Responded true statusText (inr data)))))
  = allDocs data /\
  processingDocuments
    (step w (Arrive rid (ADocuments (Responded true statusText (inr data)))))
  = currentProcessing data.
Proof.
  intro Hrid. unfold step. rewrite Hrid. destruct caller; hook; auto.
  destruct (js_truthy_str (track_id result)); auto.
Qed.

Lemma run_app (w : World) (evs1 evs2 : list Event) :
  run w (evs1 ++ evs2) = run (run w evs1) evs2.
Proof. apply fold_left_app. Qed.

(** C1, as the code has it: the catalog is written by every list answer
    that parses, at the moment it arrives.  Each call of [listDocuments]
    sends a request of its own, whatever is already in flight; and after
    any schedule the snapshot is the listing of the answer that arrived
    last (here the answer to [rid], followed by events [post] none of
    which writes the catalog), wherever that request stands in the order
    of starts. *)
Theorem C1_last_arrival_wins
    (w : World) (pre post : list Event) (rid : nat) (caller : ListCaller)
    (statusText : string) (data : LightRAGDocumentsResponse)
    (Hflight : lookup_req rid (inflight (run w pre)) = Some (AwaitDocuments caller))
    (Hpost : forallb (fun ev => negb (replaces_catalog ev)) post = true) :
  documents
    (run w (pre ++ Arrive rid (ADocuments (Responded true statusText (inr data))) :: post))
  = allDocs data /\
  processingDocuments
    (run w (pre ++ Arrive rid (ADocuments (Responded true statusText (inr data))) :: post))
  = currentProcessing data /\
  (forall w0 : World,
     inflight (step w0 (Call OpListDocuments))
     = inflight w0 ++ [(nextReq w0, AwaitDocuments ByCaller)] /\
     length (sent (step w0 (Call OpListDocuments))) = S (length (sent w0))).
Proof.
  rewrite run_app. cbn [run fold_left].
  destruct (@run_keeps_catalog post
              (step (run w pre)
                 (Arrive rid (ADocuments (Responded true statusText (inr data)))))
              Hpost) as [Hd Hp].
  unfold run in Hd, Hp |- *. rewrite Hd, Hp.
  destruct (@list_answer_installs (fold_left step pre w) rid caller statusText data Hflight)
    as [Hd' Hp'].
  repeat split; auto.
  hook. rewrite length_app. cbn. lia.
Qed.

Lemma C1_last_arrival_wins_witness :
  lookup_req 0
    (inflight (run init_world
                 [Call OpListDocuments; Call OpListDocuments;
                  Arrive 1 (ok_documents listing_new)]))
  = Some (AwaitDocuments ByCaller) /\
  documents
    (run init_world
       ([Call OpListDocuments; Call OpListDocuments;
         Arrive 1 (ok_documents listing_new)]
        ++ Arrive 0 (ok_documents listing_old) :: []))
  = allDocs listing_old.
Proof.
  split; [reflexivity |].
  apply (@C1_last_arrival_wins init_world
           [Call OpListDocuments; Call OpListDocuments;
            Arrive 1 (ok_documents listing_new)]
           [] 0%nat ByCaller "OK" listing_old);
    reflexivity.
Defined.

(** C1 fails on the code: with two overlapping calls both requests are in
    flight at once, and when the answer to the earlier request arrives
    after the answer to the later one, the catalog ends as the earlier
    request's listing, not as the listing of the request that started
    last. *)
Lemma C1_stale_answer_overwrites :
  length (inflight (run init_world [Call OpListDocuments; Call OpListDocuments])) = 2%nat /\
  inflight (run init_world crossed_refreshes) = [] /\
  catalog_by_start_time crossed_refreshes = allDocs listing_new /\
  documents (run init_world crossed_refreshes) = allDocs listing_old /\
  documents (run init_world crossed_refreshes) <> catalog_by_start_time crossed_refreshes.
Proof.
  repeat split; try reflexivity.
  vm_compute. discriminate.
Qed.

(** ** Reconciliation *)

Lemma still_processing_not_complete (data : TrackStatusResponse) :
  isStillProcessing data = true -> isComplete data = false.
Proof.
  unfold isStillProcessing, isComplete.
  destruct (status_summary data) as [s |]; [| discriminate].
  destruct (sum_processing s) as [busy |]; cbn; [| discriminate].
  intro Hbusy. apply Z.ltb_lt in Hbusy.
  destruct (busy =? 0) eqn:E; [apply Z.eqb_eq in E; lia |].
  cbn. apply andb_false_r.
Qed.

Lemma terminal_success_complete (statusText : string) (data : TrackStatusResponse) :
  terminal_success (Responded true statusText (inr data)) = true ->
  isComplete data = true.
Proof.
  unfold terminal_success, isComplete.
  destruct (status_summary data) as [s |]; [| discriminate].
  destruct (sum_processed s) as [done |]; [| discriminate].
  destruct (sum_processing s) as [busy |]; cbn.
  - intro H. apply andb_true_iff in H as [-> ->]. reflexivity.
  - intros ->. reflexivity.
Qed.

(** C5: when the answer to a status query reports at least one processed
    document and none being processed, whatever the attempts left, the
    sequence ends with exactly one call of [listDocuments]: one list
    request is sent and awaited, no timer is set (so no further status
    query will ever be sent for this handle), and nothing is shown to the
    user. *)
Theorem C5_terminal_success_resolves
    (w : World) (rid : nat) (trackId : string) (maxAttempts : Z)
    (r : FetchResult TrackStatusResponse)
    (Hflight : lookup_req rid (inflight w) = Some (AwaitTrackStatus trackId maxAttempts))
    (Hdone : terminal_success r = true) :
  let w' := step w (Arrive rid (ATrack r)) in
  sent w' = sent w ++ [refresh_request] /\
  inflight w' = remove_req rid (inflight w) ++ [(nextReq w, AwaitDocuments InCheck)] /\
  timers w' = timers w /\
  toasts w' = toasts w /\
  documents w' = documents w.
Proof.
  destruct r as [e | [|] statusText [e | data]]; try discriminate.
  apply terminal_success_complete in Hdone.
  unfold step. rewrite Hflight. cbn [resume].
  unfold checkUploadComplete_resume. rewrite Hdone.
  hook. repeat split.
Qed.

Lemma C5_terminal_success_resolves_witness :
  lookup_req 0 (inflight (checkUploadComplete "t1" 10 init_world))
  = Some (AwaitTrackStatus "t1" 10) /\
  terminal_success track_done = true /\
  timers (step (checkUploadComplete "t1" 10 init_world) (Arrive 0 (ATrack track_done))) = [].
Proof.
  split; [reflexivity | split; [reflexivity |]].
  apply (@C5_terminal_success_resolves (checkUploadComplete "t1" 10 init_world)
           0%nat "t1" 10 track_done); reflexivity.
Defined.

Section Polling.

(** One polling sequence, for one tracking handle. *)
Variable trackId : string.

Lemma busy_round (n : Z) (r : FetchResult TrackStatusResponse)
    (w : World) :
  quiet w -> still_processing r = true -> 0 < n ->
  run (checkUploadComplete trackId n w) [Arrive (nextReq w) (ATrack r); Fire 0]
  = checkUploadComplete trackId (n - 1) (answered trackId w).
Proof.
  intros [Hi Ht] Hr Hn.
  destruct r as [e | [|] statusText [e | data]]; try discriminate.
  cbn in Hr. pose proof (still_processing_not_complete data Hr) as Hc.
  apply Z.ltb_lt in Hn.
  destruct w; cbn in Hi, Ht; subst.
  unfold run, step, checkUploadComplete, fetch, seq. cbn.
  rewrite Nat.eqb_refl. cbn. unfold checkUploadComplete_resume.
  rewrite Hc, Hr, Hn. reflexivity.
Qed.

Lemma last_round (n : Z) (r : FetchResult TrackStatusResponse)
    (w : World) :
  quiet w -> still_processing r = true -> n <= 0 ->
  run (checkUploadComplete trackId n w) [Arrive (nextReq w) (ATrack r); Fire 0]
  = listDocuments InCheck (answered trackId w).
Proof.
  intros [Hi Ht] Hr Hn.
  destruct r as [e | [|] statusText [e | data]]; try discriminate.
  cbn in Hr. pose proof (still_processing_not_complete data Hr) as Hc.
  assert (Hn' : (0 <? n) = false) by (apply Z.ltb_ge; exact Hn).
  destruct w; cbn in Hi, Ht; subst.
  unfold run, step, checkUploadComplete, fetch, seq. cbn.
  rewrite Nat.eqb_refl. cbn. unfold checkUploadComplete_resume.
  rewrite Hc, Hr, Hn'. reflexivity.
Qed.

Lemma answered_quiet (w : World) :
  quiet w -> quiet (answered trackId w).
Proof. intros [Hi Ht]. split; assumption. Qed.

(** While attempts are left, [k] busy answers leave the sequence polling:
    the next status query is in flight. *)
Lemma busy_rounds (k : nat) :
  forall (w : World) (n : Z) (rs : list (FetchResult TrackStatusResponse)),
    quiet w -> length rs = k -> forallb still_processing rs = true ->
    Z.of_nat k <= n ->
    run (checkUploadComplete trackId n w) (poll_schedule (nextReq w) rs)
    = checkUploadComplete trackId (n - Z.of_nat k) (answered_n trackId k w).
Proof.
  induction k as [| k IH]; intros w n rs Hq Hlen Hrs Hn.
  - destruct rs; [| discriminate]. cbn. rewrite Z.sub_0_r. reflexivity.
  - destruct rs as [| r rs]; [discriminate |].
    cbn [forallb] in Hrs. apply andb_true_iff in Hrs as [Hr Hrs].
    cbn [poll_schedule].
    change (Arrive (nextReq w) (ATrack r) :: Fire 0
              :: poll_schedule (S (nextReq w)) rs)
      with ([Arrive (nextReq w) (ATrack r); Fire 0]
              ++ poll_schedule (S (nextReq w)) rs).
    rewrite run_app, busy_round by (auto; lia).
    change (S (nextReq w)) with (nextReq (answered trackId w)).
    rewrite IH; auto using answered_quiet; [| lia].
    cbn [answered_n]. f_equal. lia.
Qed.

(** One busy answer more than the budget ends the sequence with a call of
    [listDocuments]. *)
Lemma exhausting_rounds (k : nat) :
  forall (w : World) (rs : list (FetchResult TrackStatusResponse)),
    quiet w -> length rs = S k -> forallb still_processing rs = true ->
    run (checkUploadComplete trackId (Z.of_nat k) w) (poll_schedule (nextReq w) rs)
    = listDocuments InCheck (answered_n trackId (S k) w).
Proof.
  induction k as [| k IH]; intros w rs Hq Hlen Hrs;
    destruct rs as [| r rs]; try discriminate;
    cbn [forallb] in Hrs; apply andb_true_iff in Hrs as [Hr Hrs];
    cbn [poll_schedule];
    change (Arrive (nextReq w) (ATrack r) :: Fire 0
              :: poll_schedule (S (nextReq w)) rs)
      with ([Arrive (nextReq w) (ATrack r); Fire 0]
              ++ poll_schedule (S (nextReq w)) rs);
    rewrite run_app.
  - destruct rs; [| discriminate]. rewrite last_round by (auto; reflexivity).
    reflexivity.
  - rewrite busy_round by (auto; lia).
    replace (Z.of_nat (S k) - 1) with (Z.of_nat k) by lia.
    change (S (nextReq w)) with (nextReq (answered trackId w)).
    rewrite IH; auto using answered_quiet.
Qed.

Lemma is_refresh_status_query :
  is_refresh (status_query trackId) = false.
Proof. reflexivity. Qed.

Lemma answered_n_fields (k : nat) :
  forall w : World,
    sent (answered_n trackId k w) = sent w ++ repeat (status_query trackId) k /\
    nextReq (answered_n trackId k w) = (nextReq w + k)%nat /\
    timers (answered_n trackId k w) = timers w /\
    inflight (answered_n trackId k w) = inflight w /\
    toasts (answered_n trackId k w) = toasts w /\
    documents (answered_n trackId k w) = documents w.
Proof.
  induction k as [| k IH]; intro w.
  - cbn. rewrite app_nil_r, Nat.add_0_r. repeat split.
  - cbn [answered_n]. destruct (IH (answered trackId w)) as (Hs & Hn & Ht & Hi & Ho & Hd).
    rewrite Hs, Hn, Ht, Hi, Ho, Hd. cbn.
    rewrite <- app_assoc. cbn. repeat split. lia.
Qed.

Lemma count_status_queries_app (l1 l2 : list Request) :
  count_status_queries trackId (l1 ++ l2)
  = (count_status_queries trackId l1 + count_status_queries trackId l2)%nat.
Proof. unfold count_status_queries. rewrite filter_app. apply length_app. Qed.

Lemma count_status_queries_repeat (k : nat) :
  count_status_queries trackId (repeat (status_query trackId) k) = k.
Proof.
  induction k as [| k IH]; [reflexivity |].
  change (repeat (status_query trackId) (S k))
    with ([status_query trackId] ++ repeat (status_query trackId) k).
  rewrite count_status_queries_app, IH.
  unfold count_status_queries, is_status_query. cbn [filter status_query path].
  rewrite String.eqb_refl. reflexivity.
Qed.

Lemma count_refreshes_repeat (k : nat) :
  count_refreshes (repeat (status_query trackId) k) = 0%nat.
Proof.
  induction k as [| k IH]; [reflexivity |].
  unfold count_refreshes in *. cbn [repeat filter].
  rewrite is_refresh_status_query. exact IH.
Qed.

(** The fields of the state while the status query made with [n] attempts
    left is in flight, after [k] earlier queries. *)
Lemma polling_fields (n : Z) (k : nat) (w : World) :
  let w' := checkUploadComplete trackId n (answered_n trackId k w) in
  sent w' = sent w ++ repeat (status_query trackId) (S k) /\
  inflight w' = inflight w ++ [((nextReq w + k)%nat, AwaitTrackStatus trackId n)] /\
  timers w' = timers w /\
  toasts w' = toasts w /\
  documents w' = documents w.
Proof.
  destruct (answered_n_fields k w) as (Hs & Hn & Ht & Hi & Ho & Hd).
  cbv zeta. repeat split.
  - change (sent (checkUploadComplete trackId n (answered_n trackId k w)))
      with (sent (answered_n trackId k w) ++ [status_query trackId]).
    rewrite Hs, <- app_assoc. f_equal. symmetry. apply repeat_cons.
  - change (inflight (checkUploadComplete trackId n (answered_n trackId k w)))
      with (inflight (answered_n trackId k w)
              ++ [(nextReq (answered_n trackId k w), AwaitTrackStatus trackId n)]).
    rewrite Hi, Hn. reflexivity.
  - exact Ht.
  - exact Ho.
  - exact Hd.
Qed.

(** The fields of the state once the sequence has ended with a refresh,
    after [k] status queries. *)
Lemma ended_fields (k : nat) (w : World) :
  let w' := listDocuments InCheck (answered_n trackId k w) in
  sent w' = sent w ++ repeat (status_query trackId) k ++ [refresh_request] /\
  inflight w' = inflight w ++ [((nextReq w + k)%nat, AwaitDocuments InCheck)] /\
  timers w' = timers w /\
  toasts w' = toasts w /\
  documents w' = documents w.
Proof.
  destruct (answered_n_fields k w) as (Hs & Hn & Ht & Hi & Ho & Hd).
  cbv zeta. repeat split.
  - change (sent (listDocuments InCheck (answered_n trackId k w)))
      with (sent (answered_n trackId k w) ++ [refresh_request]).
    rewrite Hs, <- app_assoc. reflexivity.
  - change (inflight (listDocuments InCheck (answered_n trackId k w)))
      with (inflight (answered_n trackId k w)
              ++ [(nextReq (answered_n trackId k w), AwaitDocuments InCheck)]).
    rewrite Hi, Hn. reflexivity.
  - exact Ht.
  - exact Ho.
  - exact Hd.
Qed.

Lemma answered_n_quiet (k : nat) (w : World) :
  quiet w -> quiet (answered_n trackId k w).
Proof.
  revert w. induction k as [| k IH]; intros w Hq; [exact Hq |].
  apply IH, answered_quiet, Hq.
Qed.

Lemma answered_n_last (k : nat) (w : World) :
  answered_n trackId (S k) w = answered trackId (answered_n trackId k w).
Proof.
  revert w. induction k as [| k IH]; intro w; [reflexivity |].
  change (answered_n trackId (S (S k)) w)
    with (answered_n trackId (S k) (answered trackId w)).
  rewrite IH. reflexivity.
Qed.

Lemma poll_schedule_app (rs1 rs2 : list (FetchResult TrackStatusResponse)) :
  forall rid : nat,
    poll_schedule rid (rs1 ++ rs2)
    = poll_schedule rid rs1 ++ poll_schedule (rid + length rs1)%nat rs2.
Proof.
  induction rs1 as [| r rs1 IH]; intro rid.
  - cbn. rewrite Nat.add_0_r. reflexivity.
  - cbn [app poll_schedule length]. rewrite IH.
    replace (S rid + length rs1)%nat with (rid + S (length rs1))%nat by lia.
    reflexivity.
Qed.

Lemma done_round (n : Z) (r : FetchResult TrackStatusResponse) (w : World) :
  quiet w -> terminal_success r = true ->
  run (checkUploadComplete trackId n w) [Arrive (nextReq w) (ATrack r); Fire 0]
  = listDocuments InCheck (answered trackId w).
Proof.
  intros [Hi Ht] Hr.
  destruct r as [e | [|] statusText [e | data]]; try discriminate.
  apply terminal_success_complete in Hr.
  destruct w; cbn in Hi, Ht; subst.
  unfold run, step, checkUploadComplete, fetch, seq. cbn.
  rewrite Nat.eqb_refl. cbn. unfold checkUploadComplete_resume.
  rewrite Hr. reflexivity.
Qed.

(** A sequence that sees [k] busy answers within its budget and then a
    terminal success ends there: [k + 1] status queries in all, then the
    refresh. *)
Lemma resolves_after_busy_rounds (k : nat) (n : Z) (w : World)
    (rs : list (FetchResult TrackStatusResponse)) (r : FetchResult TrackStatusResponse) :
  quiet w -> length rs = k -> forallb still_processing rs = true ->
  Z.of_nat k <= n -> terminal_success r = true ->
  run (checkUploadComplete trackId n w) (poll_schedule (nextReq w) (rs ++ [r]))
  = listDocuments InCheck (answered_n trackId (S k) w).
Proof.
  intros Hq Hlen Hrs Hn Hr.
  rewrite poll_schedule_app, run_app, busy_rounds with (k := k) by assumption.
  destruct (answered_n_fields k w) as (_ & Hnext & _).
  rewrite Hlen, <- Hnext. cbn [poll_schedule].
  rewrite done_round by auto using answered_n_quiet.
  rewrite answered_n_last. reflexivity.
Qed.

End Polling.

(** The note scenario end to end: the catalog ends with the processed
    document, the indicator set is empty, nothing is pending, the only
    result handed to the caller is the server's response, and no toast was
    shown. *)
Example note_scenario_runs :
  let w := run init_world note_scenario in
  documents w = [sample_doc "doc-1" Processed 1] /\
  processingDocuments w = [] /\
  inflight w = [] /\ timers w = [] /\
  settled w = [Fulfilled (RetUpload (Some accepted_t1))] /\
  toasts w = [] /\
  count_status_queries "t1" (sent w) = 4%nat /\
  count_refreshes (sent w) = 3%nat.
Proof. repeat split. Qed.


(** C4, as the code counts: a sequence started with [maxAttempts = N] is
    still polling after [N] busy answers, with its next status query in
    flight and no refresh triggered; it takes one busy answer more, the
    answer to status query number [N + 1], to end it.  At that point
    exactly [N + 1] status queries have been sent, exactly one refresh has
    been triggered, no timer is set and only that refresh is in flight, so
    no further status query follows. *)
Theorem C4_exhausts_after_one_more_answer
    (trackId : string) (N : nat) (w : World)
    (rs : list (FetchResult TrackStatusResponse)) (r : FetchResult TrackStatusResponse)
    (Hquiet : quiet w)
    (Hlen : length rs = N)
    (Hbusy : forallb still_processing (rs ++ [r]) = true) :
  let polling := run (checkUploadComplete trackId (Z.of_nat N) w)
                     (poll_schedule (nextReq w) rs) in
  let ended := run (checkUploadComplete trackId (Z.of_nat N) w)
                   (poll_schedule (nextReq w) (rs ++ [r])) in
  (inflight polling = [((nextReq w + N)%nat, AwaitTrackStatus trackId 0)] /\
   count_status_queries trackId (sent polling)
   = (count_status_queries trackId (sent w) + N + 1)%nat /\
   count_refreshes (sent polling) = count_refreshes (sent w)) /\
  (count_status_queries trackId (sent ended)
   = (count_status_queries trackId (sent w) + N + 1)%nat /\
   count_refreshes (sent ended) = (count_refreshes (sent w) + 1)%nat /\
   timers ended = [] /\
   inflight ended = [((nextReq w + N + 1)%nat, AwaitDocuments InCheck)] /\
   toasts ended = toasts w /\
   documents ended = documents w).
Proof.
  intros polling ended.
  assert (Hrs : forallb still_processing rs = true).
  { rewrite forallb_app in Hbusy. apply andb_true_iff in Hbusy. tauto. }
  pose proof Hquiet as [Hi Ht].
  split.
  - subst polling. rewrite busy_rounds with (k := N); auto; [| lia].
    replace (Z.of_nat N - Z.of_nat N) with 0 by lia.
    destruct (polling_fields trackId 0 N w) as (Hs & Hf & _).
    rewrite Hs, Hf, Hi. repeat split.
    + rewrite count_status_queries_app, count_status_queries_repeat. lia.
    + unfold count_refreshes. rewrite filter_app, length_app.
      fold (count_refreshes (repeat (status_query trackId) (S N))).
      rewrite count_refreshes_repeat. fold (count_refreshes (sent w)). lia.
  - subst ended. rewrite exhausting_rounds with (k := N); auto;
      [| rewrite length_app, Hlen; cbn; lia].
    destruct (ended_fields trackId (S N) w) as (Hs & Hf & Ht' & Ho & Hd).
    rewrite Hs, Hf, Ht', Ho, Hd, Hi, Ht. repeat split.
    + rewrite !count_status_queries_app, count_status_queries_repeat.
      change (count_status_queries trackId [refresh_request]) with 0%nat. lia.
    + unfold count_refreshes. rewrite !filter_app, !length_app.
      fold (count_refreshes (repeat (status_query trackId) (S N))).
      rewrite count_refreshes_repeat. fold (count_refreshes (sent w)).
      change (length (filter is_refresh [refresh_request])) with 1%nat. lia.
    + replace (nextReq w + S N)%nat with (nextReq w + N + 1)%nat by lia. reflexivity.
Qed.

Lemma C4_exhausts_after_one_more_answer_witness :
  quiet init_world /\
  forallb still_processing ([track_busy; track_busy] ++ [track_busy]) = true /\
  count_status_queries "t1"
    (sent (run (checkUploadComplete "t1" (Z.of_nat 2) init_world)
               (poll_schedule (nextReq init_world)
                  ([track_busy; track_busy] ++ [track_busy]))))
  = (count_status_queries "t1" (sent init_world) + 2 + 1)%nat.
Proof.
  split; [split; reflexivity | split; [reflexivity |]].
  apply (@C4_exhausts_after_one_more_answer "t1" 2%nat init_world
           [track_busy; track_busy] track_busy);
    [split; reflexivity | reflexivity | reflexivity].
Defined.

(** C4 fails on the code: a sequence started with [maxAttempts = 2] that
    has received two busy answers has not ended.  No refresh has been
    triggered, a timer for a further attempt is set, and when it fires a
    third status query is sent. *)
Lemma C4_two_answers_do_not_exhaust :
  let w := run (checkUploadComplete "t1" 2 init_world)
               [Arrive 0 (ATrack track_busy); Fire 0; Arrive 1 (ATrack track_busy)] in
  count_status_queries "t1" (sent w) = 2%nat /\
  count_refreshes (sent w) = 0%nat /\
  timers w = [(2000, TaskCheck "t1" 0)] /\
  count_status_queries "t1" (sent (step w (Fire 0))) = 3%nat /\
  inflight (step w (Fire 0)) = [(2%nat, AwaitTrackStatus "t1" 0)].
Proof. repeat split. Qed.

(** C2, as the code has it: when the status query fails (the promise
    rejects or the status is not a success) the sequence just stops:
    the state is what it was, less the request in flight, so no refresh
    is triggered, no timer is set and nothing is shown.  When the answer
    still reports processing and no attempt is left, the sequence ends by
    triggering one refresh, and shows nothing itself. *)
Theorem C2_failed_query_stops_exhaustion_refreshes
    (w : World) (rid : nat) (trackId : string) (maxAttempts : Z)
    (r : FetchResult TrackStatusResponse)
    (Hflight : lookup_req rid (inflight w) = Some (AwaitTrackStatus trackId maxAttempts)) :
  (fetch_fails r = true ->
   step w (Arrive rid (ATrack r)) = set_inflight (remove_req rid (inflight w)) w) /\
  (still_processing r = true -> maxAttempts <= 0 ->
   let w' := step w (Arrive rid (ATrack r)) in
   sent w' = sent w ++ [refresh_request] /\
   inflight w' = remove_req rid (inflight w) ++ [(nextReq w, AwaitDocuments InCheck)] /\
   timers w' = timers w /\
   toasts w' = toasts w /\
   documents w' = documents w).
Proof.
  split.
  - intro Hfail. unfold step. rewrite Hflight. cbn [resume].
    destruct r as [e | [|] statusText parsed]; try discriminate; reflexivity.
  - intros Hr Hn.
    destruct r as [e | [|] statusText [e | data]]; try discriminate.
    cbn in Hr. pose proof (still_processing_not_complete data Hr) as Hc.
    assert (Hn' : (0 <? maxAttempts) = false) by (apply Z.ltb_ge; exact Hn).
    unfold step. rewrite Hflight. cbn [resume].
    unfold checkUploadComplete_resume. rewrite Hc, Hr, Hn'.
    hook. repeat split.
Qed.

Lemma C2_failed_query_stops_exhaustion_refreshes_witness :
  lookup_req 0 (inflight (checkUploadComplete "t1" 0 init_world))
  = Some (AwaitTrackStatus "t1" 0) /\
  fetch_fails track_http_500 = true /\
  still_processing track_busy = true /\
  count_refreshes
    (sent (step (checkUploadComplete "t1" 0 init_world) (Arrive 0 (ATrack track_http_500))))
  = 0%nat /\
  count_refreshes
    (sent (step (checkUploadComplete "t1" 0 init_world) (Arrive 0 (ATrack track_busy))))
  = 1%nat.
Proof.
  split; [reflexivity | split; [reflexivity | split; [reflexivity |]]].
  destruct (@C2_failed_query_stops_exhaustion_refreshes
              (checkUploadComplete "t1" 0 init_world) 0%nat "t1" 0 track_http_500
              eq_refl) as [Hfail _].
  destruct (@C2_failed_query_stops_exhaustion_refreshes
              (checkUploadComplete "t1" 0 init_world) 0%nat "t1" 0 track_busy
              eq_refl) as [_ Hbusy].
  split.
  - rewrite (Hfail eq_refl). reflexivity.
  - destruct (Hbusy eq_refl ltac:(lia)) as [Hsent _]. rewrite Hsent. reflexivity.
Defined.

(** C2 fails on the code: a status query answered with HTTP 500, or lost
    to a network error, ends the sequence without any refresh.  Nothing
    is sent after the status query and nothing is left pending that could
    send one. *)
Lemma C2_failed_query_triggers_no_refresh :
  let http := run (checkUploadComplete "t1" 10 init_world)
                  [Arrive 0 (ATrack track_http_500)] in
  let net := run (checkUploadComplete "t1" 10 init_world)
                 [Arrive 0 (ATrack (Rejected (MkError "TypeError" "Failed to fetch")))] in
  (sent http = [status_query "t1"] /\ count_refreshes (sent http) = 0%nat /\
   inflight http = [] /\ timers http = []) /\
  (sent net = [status_query "t1"] /\ count_refreshes (sent net) = 0%nat /\
   inflight net = [] /\ timers net = []).
Proof. repeat split. Qed.

(** ** Submission *)

(** C6, as the code has it: when the upload request is answered with a
    non-success status, [uploadFile] catches its own error: the call's
    promise is fulfilled with [null], never rejected, and the failure is
    shown as an error toast that carries the status text.  The catalog
    snapshot and the indicator set are unchanged, no request is sent (no
    refresh), no timer is set (no reconciliation sequence), and the
    uploading flag is lowered. *)
Theorem C6_upload_failure_returns_null
    (w : World) (rid : nat) (file : File) (statusText : string)
    (parsed : JsError + LightRAGUploadResponse)
    (Hflight : lookup_req rid (inflight w) = Some (AwaitUploadFile file)) :
  let w' := step w (Arrive rid (AUpload (Responded false statusText parsed))) in
  settled w' = settled w ++ [Fulfilled (RetUpload None)] /\
  toasts w' = toasts w ++
    [ToastError ("Failed to upload file: Error: Upload failed: " ++ statusText)%string] /\
  documents w' = documents w /\
  processingDocuments w' = processingDocuments w /\
  sent w' = sent w /\
  timers w' = timers w /\
  inflight w' = remove_req rid (inflight w) /\
  uploading w' = false.
Proof.
  unfold step. rewrite Hflight. hook. repeat split.
Qed.

Lemma C6_upload_failure_returns_null_witness :
  lookup_req 0 (inflight (uploadFile sample_file init_world))
  = Some (AwaitUploadFile sample_file) /\
  settled (step (uploadFile sample_file init_world) (Arrive 0 (AUpload upload_http_500)))
  = settled (uploadFile sample_file init_world) ++ [Fulfilled (RetUpload None)].
Proof.
  split; [reflexivity |].
  apply (@C6_upload_failure_returns_null (uploadFile sample_file init_world) 0%nat
           sample_file "Internal Server Error"
           (inl (MkError "SyntaxError" "Unexpected token"))).
  reflexivity.
Defined.

(** C6 fails on the code: a file submission answered with HTTP 500 hands
    [null] to its caller; no error reaches the caller. *)
Lemma C6_caller_receives_null_not_error :
  let w := run init_world
               [Call (OpUploadFile sample_file); Arrive 0 (AUpload upload_http_500)] in
  settled w = [Fulfilled (RetUpload None)] /\ ~ receives_error w.
Proof.
  split; [reflexivity |].
  intros [e [He | []]]. discriminate.
Qed.

(** C3, the two entry points on a duplicate: neither sends a request, sets
    a timer or touches the catalog, and both return the server's response;
    but only [uploadFile] shows the warning.  [uploadText] has no branch
    for ["duplicated"] and shows nothing. *)
Theorem C3_text_duplicate_shows_no_warning :
  let by_file := run init_world [Call (OpUploadFile sample_file); Arrive 0 duplicate_answer] in
  let by_text := run init_world
                     [Call (OpUploadText "hello world" (Some "note.txt") "2025-01-01T00:00:00.000Z");
                      Arrive 0 duplicate_answer] in
  toasts by_file = [ToastWarning (message duplicate_response)] /\
  toasts by_text = [] /\
  (count_refreshes (sent by_file) = 0%nat /\ timers by_file = [] /\
   inflight by_file = [] /\ documents by_file = [] /\
   settled by_file = [Fulfilled (RetUpload (Some duplicate_response))]) /\
  (count_refreshes (sent by_text) = 0%nat /\ timers by_text = [] /\
   inflight by_text = [] /\ documents by_text = [] /\
   settled by_text = [Fulfilled (RetUpload (Some duplicate_response))]).
Proof. repeat split. Qed.

(** ** The processing indicator set *)

Lemma filter_all {A} (f : A -> bool) (l : list A) :
  Forall (fun x => f x = true) l -> filter f l = l.
Proof.
  induction 1 as [| x l Hx _ IH]; [reflexivity |].
  cbn. rewrite Hx, IH. reflexivity.
Qed.

Lemma filter_none {A} (f : A -> bool) (l : list A) :
  Forall (fun x => f x = false) l -> filter f l = [].
Proof.
  induction 1 as [| x l Hx _ IH]; [reflexivity |].
  cbn. rewrite Hx. exact IH.
Qed.

(** A refresh that succeeds on a well-formed listing sets the indicator
    set to the non-terminal entries of the catalog it installs. *)
Lemma refresh_sets_indicator
    (statusText : string) (data : LightRAGDocumentsResponse) (w : World) :
  partitions_agree data ->
  let w' := snd (listDocuments_resume (Responded true statusText (inr data)) w) in
  processingDocuments w' = indicator_of_catalog (documents w').
Proof.
  intros (Hp & Hb & Hf). hook. unfold currentProcessing, indicator_of_catalog, allDocs.
  rewrite !filter_app.
  rewrite (@filter_none _ non_terminal (or_empty (processed (statuses data)))),
          (@filter_all _ non_terminal (or_empty (processing (statuses data)))),
          (@filter_none _ non_terminal (or_empty (failed (statuses data)))).
  - cbn. rewrite app_nil_r. reflexivity.
  - eapply Forall_impl; [| exact Hf]. cbn. unfold non_terminal. intros d ->. reflexivity.
  - eapply Forall_impl; [| exact Hb]. cbn. unfold non_terminal. intros d ->. reflexivity.
  - eapply Forall_impl; [| exact Hp]. cbn. unfold non_terminal. intros d ->. reflexivity.
Qed.

(** C8, the case the code misses: after the refresh the indicator set is
    the non-terminal part of the catalog; the acknowledged clear then
    empties the catalog and leaves the indicator set as it was, naming a
    document the catalog no longer has. *)
Theorem C8_clear_leaves_indicator_stale :
  let before := run init_world [Call OpListDocuments; Arrive 0 (ok_documents listing_old)] in
  let after := run init_world refresh_then_clear in
  processingDocuments before = indicator_of_catalog (documents before) /\
  documents after = [] /\
  processingDocuments after = ["doc-1"%string] /\
  processingDocuments after <> indicator_of_catalog (documents after).
Proof.
  repeat split. vm_compute. discriminate.
Qed.

(** * Further properties of the hook *)

(** ** Who writes the catalog *)

(** The three cells a refresh writes, after any one event. *)
Lemma step_catalog_cells (w : World) (ev : Event) :
  match installs w ev with
  | Some data =>
      documents (step w ev) = allDocs data /\
      processingDocuments (step w ev) = currentProcessing data /\
      updateTrigger (step w ev) = updateTrigger w + 1
  | None =>
      documents (step w ev) = (if clears w ev then [] else documents w) /\
      processingDocuments (step w ev) = processingDocuments w /\
      updateTrigger (step w ev) = updateTrigger w
  end.
Proof.
  destruct ev as [op | rid a | k].
  - destruct op; cbn [installs clears]; hook; auto.
  - unfold installs, clears, step.
    destruct (lookup_req rid (inflight w)) as [p |].
    + destruct p as [caller | trackId maxAttempts | file | filename | |],
               a as [r | r | r | r]; cbn [resume];
        try (destruct r as [e | [|] st [e | data]]; auto; fail).
      * destruct r as [e | [|] st [e | data]], caller; hook; auto;
          destruct (js_truthy_str (track_id result)); auto.
      * destruct r as [e | [|] st [e | data]]; hook; auto.
        destruct (isComplete data); auto.
        destruct (isStillProcessing data && (0 <? maxAttempts))%bool; auto.
      * destruct r as [e | [|] st [e | data]]; hook; auto.
        destruct (up_status data); auto.
      * destruct r as [e | [|] st [e | data]]; hook; auto.
        destruct (up_status data); auto.
    + destruct a as [r | r | r | r];
        destruct r as [e | [|] st [e | data]]; auto.
  - cbn [installs clears]. unfold step.
    destruct (nth_error (timers w) k) as [[d t] |]; [| auto].
    destruct t; hook; auto.
Qed.

(** X1: the catalog and the indicator set have exactly two writers.  An
    event that is neither a parsed list answer delivered to a
    [listDocuments] in flight nor a success answer delivered to a
    [clearDocuments] in flight leaves both as they are: no call, no timer,
    no upload, status or delete answer and no failed answer touches them.
    The first kind installs the answer's listing in both; the second kind
    empties the catalog and leaves the indicator set. *)
Theorem X1_catalog_has_two_writers (w : World) (ev : Event) :
  match installs w ev with
  | Some data =>
      documents (step w ev) = allDocs data /\
      processingDocuments (step w ev) = currentProcessing data
  | None =>
      processingDocuments (step w ev) = processingDocuments w /\
      documents (step w ev) = (if clears w ev then [] else documents w)
  end.
Proof.
  pose proof (step_catalog_cells w ev) as H.
  destruct (installs w ev); tauto.
Qed.

(** X2: [updateTrigger] counts the listings installed: along any run it
    grows by one for each parsed list answer delivered to a
    [listDocuments] in flight and by nothing else; in particular it never
    decreases, and a clear does not move it. *)
Theorem X2_updateTrigger_counts_installs (evs : list Event) (w : World) :
  updateTrigger (run w evs) = updateTrigger w + Z.of_nat (count_installs w evs).
Proof.
  revert w. induction evs as [| ev evs IH]; intro w.
  - cbn. lia.
  - change (run w (ev :: evs)) with (run (step w ev) evs). rewrite IH.
    cbn [count_installs]. pose proof (step_catalog_cells w ev) as H.
    destruct (installs w ev); destruct H as (_ & _ & ->); lia.
Qed.

(** ** The indicator set without clear *)

Lemma partitions_agree_indicator (data : LightRAGDocumentsResponse) :
  partitions_agree data ->
  currentProcessing data = indicator_of_catalog (allDocs data).
Proof.
  intros (Hp & Hb & Hf). unfold currentProcessing, indicator_of_catalog, allDocs.
  rewrite !filter_app.
  rewrite (@filter_none _ non_terminal (or_empty (processed (statuses data)))),
          (@filter_all _ non_terminal (or_empty (processing (statuses data)))),
          (@filter_none _ non_terminal (or_empty (failed (statuses data)))).
  - cbn. rewrite app_nil_r. reflexivity.
  - eapply Forall_impl; [| exact Hf]. cbn. unfold non_terminal. intros d ->. reflexivity.
  - eapply Forall_impl; [| exact Hb]. cbn. unfold non_terminal. intros d ->. reflexivity.
  - eapply Forall_impl; [| exact Hp]. cbn. unfold non_terminal. intros d ->. reflexivity.
Qed.

Lemma remove_req_not_clear (rid : nat) (l : list (nat * Pending)) :
  Forall not_clear l -> Forall not_clear (remove_req rid l).
Proof.
  induction 1 as [| [i p] l Hp Hl IH]; [constructor |].
  cbn. destruct (Nat.eqb i rid); [exact Hl | constructor; assumption].
Qed.

Lemma lookup_req_not_clear (rid : nat) (l : list (nat * Pending)) (p : Pending) :
  Forall not_clear l -> lookup_req rid l = Some p -> p <> AwaitClear.
Proof.
  induction 1 as [| [i q] l Hq Hl IH]; [discriminate |].
  cbn. destruct (Nat.eqb i rid); [| exact IH].
  intros [= <-]. exact Hq.
Qed.

Ltac not_clear_tac :=
  cbn;
  repeat (apply Forall_app; split);
  auto using remove_req_not_clear;
  repeat constructor; cbn; discriminate.

(** Without a call of [clearDocuments] no clear gets in flight. *)
Lemma step_no_clear_pending (w : World) (ev : Event) :
  calls_clear ev = false -> no_clear_pending w -> no_clear_pending (step w ev).
Proof.
  unfold no_clear_pending. intros Hev Hw.
  destruct ev as [op | rid a | k].
  - destruct op; try discriminate; hook; not_clear_tac.
  - unfold step. destruct (lookup_req rid (inflight w)) as [p |]; [| exact Hw].
    destruct p as [caller | trackId maxAttempts | file | filename | |],
             a as [r | r | r | r]; cbn [resume]; try exact Hw.
    + destruct r as [e | [|] st [e | data]], caller; hook;
        try destruct (js_truthy_str (track_id result)); not_clear_tac.
    + destruct r as [e | [|] st [e | data]]; hook; try not_clear_tac.
      destruct (isComplete data); [not_clear_tac |].
      destruct (isStillProcessing data && (0 <? maxAttempts))%bool; not_clear_tac.
    + destruct r as [e | [|] st [e | data]]; hook; try not_clear_tac.
      destruct (up_status data); not_clear_tac.
    + destruct r as [e | [|] st [e | data]]; hook; try not_clear_tac.
      destruct (up_status data); not_clear_tac.
    + destruct r as [e | [|] st parsed]; hook; not_clear_tac.
    + destruct r as [e | [|] st parsed]; hook; not_clear_tac.
  - unfold step. destruct (nth_error (timers w) k) as [[d t] |]; [| exact Hw].
    destruct t; hook; not_clear_tac.
Qed.

Lemma installs_answer (w : World) (ev : Event) (data : LightRAGDocumentsResponse) :
  installs w ev = Some data -> well_formed_answer ev -> partitions_agree data.
Proof.
  destruct ev as [op | rid [[e | [|] st [e | d]] | r | r | r] | k]; try discriminate.
  cbn. destruct (lookup_req rid (inflight w)) as [[] |]; try discriminate.
  intros [= <-]. auto.
Qed.

Lemma clears_pending (w : World) (ev : Event) :
  clears w ev = true -> ~ no_clear_pending w.
Proof.
  destruct ev as [op | rid [r | r | r | [e | [|] st b]] | k]; try discriminate.
  cbn. destruct (lookup_req rid (inflight w)) as [p |] eqn:Hp; [| discriminate].
  destruct p; try discriminate. intros _ Hw.
  exact (lookup_req_not_clear rid Hw Hp eq_refl).
Qed.

(** X3: as long as [clearDocuments] is never called, the indicator set
    stays the non-terminal part of the catalog: from a state where it is
    and where no clear is in flight, every run without a call of
    [clearDocuments], in which the listings that arrive have each document
    in the partition of its status, ends in such a state. *)
Theorem X3_indicator_kept_without_clear (evs : list Event) (w : World)
    (Hok : indicator_ok w)
    (Hpending : no_clear_pending w)
    (Hanswers : Forall well_formed_answer evs)
    (Hcalls : forallb (fun ev => negb (calls_clear ev)) evs = true) :
  indicator_ok (run w evs) /\ no_clear_pending (run w evs).
Proof.
  revert w Hok Hpending.
  induction evs as [| ev evs IH]; intros w Hok Hpending; [split; assumption |].
  inversion Hanswers as [| ? ? Hev Hevs]; subst.
  cbn [forallb] in Hcalls. apply andb_true_iff in Hcalls as [Hcall Hcalls].
  apply negb_true_iff in Hcall.
  change (run w (ev :: evs)) with (run (step w ev) evs).
  apply IH; auto using step_no_clear_pending.
  unfold indicator_ok. pose proof (step_catalog_cells w ev) as H.
  destruct (installs w ev) as [data |] eqn:Hinst.
  - destruct H as (-> & -> & _).
    apply partitions_agree_indicator. eapply installs_answer; eauto.
  - destruct H as (-> & -> & _).
    destruct (clears w ev) eqn:Hclear; [| exact Hok].
    exfalso. exact (@clears_pending w ev Hclear Hpending).
Qed.

Lemma X3_indicator_kept_without_clear_witness :
  indicator_ok init_world /\
  forallb (fun ev => negb (calls_clear ev)) note_scenario = true /\
  indicator_ok (run init_world note_scenario).
Proof.
  split; [reflexivity | split; [reflexivity |]].
  apply (@X3_indicator_kept_without_clear note_scenario init_world).
  - reflexivity.
  - constructor.
  - unfold note_scenario, well_formed_answer, partitions_agree.
    repeat (constructor; cbn; auto).
  - reflexivity.
Defined.

(** ** Accepted uploads *)

Lemma lookup_req_remove_other (rid rid' : nat) (l : list (nat * Pending)) :
  rid' <> rid -> lookup_req rid' (remove_req rid l) = lookup_req rid' l.
Proof.
  intro Hne. induction l as [| [i p] l IH]; [reflexivity |].
  cbn. destruct (Nat.eqb i rid) eqn:Ei.
  - apply Nat.eqb_eq in Ei. subst i.
    destruct (Nat.eqb rid rid') eqn:E; [| reflexivity].
    apply Nat.eqb_eq in E. congruence.
  - cbn. rewrite IH. reflexivity.
Qed.

(** X4: an accepted submission, through either entry point, first calls
    [listDocuments] and returns nothing yet.  When that refresh returns,
    whether it succeeded or failed, the upload sets a refresh timer of
    1000 ms and, only if the response carries a non-empty [track_id], a
    timer of 3000 ms for [checkUploadComplete] with the default budget of
    10; it then hands the server's response to the caller and lowers the
    uploading flag.  An empty [track_id] counts as none. *)
Theorem X4_accepted_upload_schedules
    (w : World) (rid : nat) (result : LightRAGUploadResponse) :
  (forall (p : Pending) (r : FetchResult LightRAGUploadResponse),
     lookup_req rid (inflight w) = Some p -> is_upload p = true ->
     accepted r = Some result ->
     let w' := step w (Arrive rid (AUpload r)) in
     sent w' = sent w ++ [refresh_request] /\
     inflight w' = remove_req rid (inflight w)
                   ++ [(nextReq w, AwaitDocuments (InUpload result))] /\
     timers w' = timers w /\
     settled w' = settled w /\
     toasts w' = toasts w) /\
  (forall r : FetchResult LightRAGDocumentsResponse,
     lookup_req rid (inflight w) = Some (AwaitDocuments (InUpload result)) ->
     let w' := step w (Arrive rid (ADocuments r)) in
     timers w' = timers w ++ upload_timers result /\
     settled w' = settled w ++ [Fulfilled (RetUpload (Some result))] /\
     uploading w' = false /\
     sent w' = sent w /\
     inflight w' = remove_req rid (inflight w)).
Proof.
  split.
  - intros p r Hp Hup Hacc.
    destruct r as [e | [|] st [e | res]]; try discriminate.
    cbn in Hacc. destruct (up_status res) eqn:Hst; try discriminate.
    injection Hacc as ->.
    unfold step. rewrite Hp.
    destruct p; try discriminate; cbn [resume];
      unfold uploadFile_resume, uploadText_resume, result_or_throw;
      rewrite Hst; repeat split.
  - intros r Hp. unfold step. rewrite Hp. cbn [resume after_listDocuments].
    unfold upload_timers, upload_after_refresh.
    destruct r as [e | [|] st [e | data]]; hook;
      destruct (js_truthy_str (track_id result)); cbn;
      rewrite <- ?app_assoc; repeat split.
Qed.

Lemma X4_accepted_upload_schedules_witness :
  lookup_req 0 (inflight (uploadFile sample_file init_world))
  = Some (AwaitUploadFile sample_file) /\
  accepted (Responded true "OK" (inr accepted_without_handle))
  = Some accepted_without_handle /\
  timers (run init_world
            [Call (OpUploadFile sample_file);
             Arrive 0 (AUpload (Responded true "OK" (inr accepted_without_handle)));
             Arrive 1 (ADocuments (Rejected (MkError "TypeError" "Failed to fetch")))])
  = [(1000, TaskRefresh)].
Proof.
  split; [reflexivity | split; [reflexivity |]].
  destruct (@X4_accepted_upload_schedules (uploadFile sample_file init_world) 0%nat
              accepted_without_handle) as [Hfirst _].
  destruct (Hfirst (AwaitUploadFile sample_file)
              (Responded true "OK" (inr accepted_without_handle))
              eq_refl eq_refl eq_refl) as (_ & Hflight & _).
  destruct (@X4_accepted_upload_schedules
              (step (uploadFile sample_file init_world)
                 (Arrive 0 (AUpload (Responded true "OK" (inr accepted_without_handle)))))
              1%nat accepted_without_handle) as [_ Hsecond].
  destruct (Hsecond (Rejected (MkError "TypeError" "Failed to fetch")) eq_refl)
    as (Htimers & _).
  exact Htimers.
Defined.

(** ** The two busy flags *)

(** X5: any answer to a list request, good or bad, lowers
    [documentsLoading] and takes only its own request out of flight: the
    flag goes down even while other list requests are still unanswered. *)
Theorem X5_loading_flag_is_not_a_count
    (w : World) (rid : nat) (caller : ListCaller)
    (r : FetchResult LightRAGDocumentsResponse)
    (Hflight : lookup_req rid (inflight w) = Some (AwaitDocuments caller)) :
  let w' := step w (Arrive rid (ADocuments r)) in
  documentsLoading w' = false /\
  inflight w' = remove_req rid (inflight w) /\
  (forall (rid' : nat) (p : Pending),
     rid' <> rid -> lookup_req rid' (inflight w) = Some p ->
     lookup_req rid' (inflight w') = Some p).
Proof.
  assert (H : documentsLoading (step w (Arrive rid (ADocuments r))) = false /\
              inflight (step w (Arrive rid (ADocuments r)))
              = remove_req rid (inflight w)).
  { unfold step. rewrite Hflight. cbn [resume].
    destruct r as [e | [|] st [e | data]], caller; hook;
      try destruct (js_truthy_str (track_id result)); split; reflexivity. }
  destruct H as [Hflag Hin]. cbv zeta. repeat split; auto.
  intros rid' p Hne Hp. rewrite Hin, lookup_req_remove_other; assumption.
Qed.

Lemma X5_loading_flag_is_not_a_count_witness :
  lookup_req 0 (inflight (run init_world [Call OpListDocuments; Call OpListDocuments]))
  = Some (AwaitDocuments ByCaller) /\
  documentsLoading
    (run init_world [Call OpListDocuments; Call OpListDocuments;
                     Arrive 0 (ok_documents listing_old)]) = false /\
  lookup_req 1
    (inflight (run init_world [Call OpListDocuments; Call OpListDocuments;
                               Arrive 0 (ok_documents listing_old)]))
  = Some (AwaitDocuments ByCaller).
Proof.
  split; [reflexivity |].
  destruct (@X5_loading_flag_is_not_a_count
              (run init_world [Call OpListDocuments; Call OpListDocuments])
              0%nat ByCaller (Responded true "OK" (inr listing_old)) eq_refl)
    as (Hflag & _ & Hothers).
  split; [exact Hflag |].
  apply Hothers; [discriminate | reflexivity].
Defined.

(** X6: an upload that is refused (failed request, unreadable body,
    ["duplicated"] or ["error"]) hands its result to the caller and
    lowers [uploading] at once, and takes only its own request out of
    flight: the flag goes down even while another upload is still
    unanswered.  The result is [null] exactly when the request failed or
    the body could not be read. *)
Theorem X6_uploading_flag_is_not_a_count
    (w : World) (rid : nat) (p : Pending) (r : FetchResult LightRAGUploadResponse)
    (Hflight : lookup_req rid (inflight w) = Some p)
    (Hupload : is_upload p = true)
    (Hrefused : accepted r = None) :
  let w' := step w (Arrive rid (AUpload r)) in
  uploading w' = false /\
  settled w' = settled w ++
    [Fulfilled (RetUpload match r with
                          | Responded true _ (inr result) => Some result
                          | _ => None
                          end)] /\
  timers w' = timers w /\
  sent w' = sent w /\
  inflight w' = remove_req rid (inflight w) /\
  (forall (rid' : nat) (p' : Pending),
     rid' <> rid -> lookup_req rid' (inflight w) = Some p' ->
     lookup_req rid' (inflight w') = Some p').
Proof.
  assert (H : uploading (step w (Arrive rid (AUpload r))) = false /\
              settled (step w (Arrive rid (AUpload r))) = settled w ++
                [Fulfilled (RetUpload match r with
                                      | Responded true _ (inr result) => Some result
                                      | _ => None
                                      end)] /\
              timers (step w (Arrive rid (AUpload r))) = timers w /\
              sent (step w (Arrive rid (AUpload r))) = sent w /\
              inflight (step w (Arrive rid (AUpload r)))
              = remove_req rid (inflight w)).
  { unfold step. rewrite Hflight.
    destruct p; try discriminate; cbn [resume];
      unfold uploadFile_resume, uploadText_resume, result_or_throw;
      destruct r as [e | [|] st [e | res]]; try (repeat split; fail);
      cbn in Hrefused; destruct (up_status res); try discriminate;
      repeat split. }
  destruct H as (Hflag & Hset & Htim & Hsent & Hin). cbv zeta.
  repeat split; auto.
  intros rid' p' Hne Hp'. rewrite Hin, lookup_req_remove_other; assumption.
Qed.

Lemma X6_uploading_flag_is_not_a_count_witness :
  lookup_req 0
    (inflight (run init_world
                 [Call (OpUploadFile sample_file); Call (OpUploadFile sample_file)]))
  = Some (AwaitUploadFile sample_file) /\
  accepted upload_http_500 = None /\
  uploading
    (run init_world
       [Call (OpUploadFile sample_file); Call (OpUploadFile sample_file);
        Arrive 0 (AUpload upload_http_500)]) = false /\
  lookup_req 1
    (inflight (run init_world
                 [Call (OpUploadFile sample_file); Call (OpUploadFile sample_file);
                  Arrive 0 (AUpload upload_http_500)]))
  = Some (AwaitUploadFile sample_file).
Proof.
  split; [reflexivity | split; [reflexivity |]].
  destruct (@X6_uploading_flag_is_not_a_count
              (run init_world
                 [Call (OpUploadFile sample_file); Call (OpUploadFile sample_file)])
              0%nat (AwaitUploadFile sample_file) upload_http_500
              eq_refl eq_refl eq_refl)
    as (Hflag & _ & _ & _ & _ & Hothers).
  split; [exact Hflag |].
  apply Hothers; [discriminate | reflexivity].
Defined.

(** ** Remove *)

Lemma currentProcessing_in_catalog (data : LightRAGDocumentsResponse) (id : string) :
  In id (currentProcessing data) -> In id (map doc_id (allDocs data)).
Proof.
  unfold currentProcessing, allDocs. intro H.
  rewrite !map_app. apply in_or_app. right. apply in_or_app. left. exact H.
Qed.

(** X7: [deleteDocument] never edits the snapshot itself.  After the
    server's acknowledgement the catalog is what it was, the call has
    returned [true] and one refresh timer of 1000 ms is set; a failed
    delete sets no timer and returns [false].  Once the timer has fired
    and its refresh is answered by a listing that omits the document, the
    document is in neither the catalog nor the indicator set. *)
Theorem X7_delete_then_refresh_drops_document
    (w : World) (documentId : string)
    (data : LightRAGDocumentsResponse) (r : FetchResult unit)
    (Hquiet : quiet w)
    (Hfail : fetch_fails r = true)
    (Homits : ~ In documentId (map doc_id (allDocs data))) :
  let acknowledged := run w [Call (OpDeleteDocument documentId);
                             Arrive (nextReq w) (AAck (Responded true "OK" (inr tt)))] in
  let refused := run w [Call (OpDeleteDocument documentId);
                        Arrive (nextReq w) (AAck r)] in
  let refreshed := run w (delete_then_refresh documentId (nextReq w) data) in
  (documents acknowledged = documents w /\
   timers acknowledged = [(1000, TaskRefresh)] /\
   settled acknowledged = settled w ++ [Fulfilled (RetBool true)]) /\
  (documents refused = documents w /\
   timers refused = [] /\
   inflight refused = [] /\
   settled refused = settled w ++ [Fulfilled (RetBool false)]) /\
  (documents refreshed = allDocs data /\
   ~ In documentId (map doc_id (documents refreshed)) /\
   ~ In documentId (processingDocuments refreshed) /\
   timers refreshed = [] /\ inflight refreshed = []).
Proof.
  destruct Hquiet as [Hi Ht].
  destruct w; cbn in Hi, Ht; subst.
  cbv zeta. unfold delete_then_refresh, ok_documents, run.
  repeat (cbn; rewrite ?Nat.eqb_refl).
  split; [| split].
  - repeat split.
  - destruct r as [e | [|] st b]; try discriminate; cbn; repeat split.
  - repeat split; auto.
    intro Hin. apply Homits. apply currentProcessing_in_catalog. exact Hin.
Qed.

Lemma X7_delete_then_refresh_drops_document_witness :
  quiet init_world /\
  fetch_fails (Responded false "Not Found" (inr tt) : FetchResult unit) = true /\
  ~ In "doc-2"%string (map doc_id (allDocs listing_old)) /\
  documents (run init_world (delete_then_refresh "doc-2" (nextReq init_world) listing_old))
  = allDocs listing_old.
Proof.
  assert (Homits : ~ In "doc-2"%string (map doc_id (allDocs listing_old))).
  { cbn. intros [H | []]. discriminate. }
  split; [split; reflexivity | split; [reflexivity | split; [exact Homits |]]].
  destruct (@X7_delete_then_refresh_drops_document init_world "doc-2" listing_old
              (Responded false "Not Found" (inr tt))
              (conj eq_refl eq_refl) eq_refl Homits)
    as (_ & _ & Hdocs & _).
  exact Hdocs.
Defined.

(** ** The name of a text submission *)

Lemma contains_colon_app (s1 s2 : string) :
  contains_colon (s1 ++ s2)%string = contains_colon s1 || contains_colon s2.
Proof.
  induction s1 as [| c s1 IH]; [reflexivity |].
  cbn. rewrite IH. apply orb_assoc.
Qed.

Lemma replace_colons_no_colon (s : string) :
  contains_colon (replace_colons s) = false.
Proof.
  induction s as [| c s IH]; [reflexivity |].
  cbn. rewrite IH, orb_false_r.
  destruct (Ascii.eqb c ":"%char) eqn:E; [reflexivity | exact E].
Qed.

Lemma replace_colons_length (s : string) :
  String.length (replace_colons s) = String.length s.
Proof. induction s as [| c s IH]; cbn; congruence. Qed.

Lemma substring_prefix_length (n : nat) (s : string) :
  (String.length (substring 0 n s) <= n)%nat.
Proof.
  revert s. induction n as [| n IH]; intro s.
  - destruct s; cbn; lia.
  - destruct s as [| c s]; cbn; [lia |]. specialize (IH s). lia.
Qed.

Lemma string_length_app (s1 s2 : string) :
  String.length (s1 ++ s2)%string = (String.length s1 + String.length s2)%nat.
Proof. induction s1 as [| c s1 IH]; cbn; congruence. Qed.

(** X8: the file name sent with a text submission.  A non-empty name
    given by the caller is sent as it is.  Without a name, or with the
    empty name, the hook makes one from the current time: it starts with
    [text_document_], ends with [.txt], contains no colon whatever the
    time string is, and is at most 37 characters long. *)
Theorem X8_text_filename (now : string) :
  (forall filename : string,
     filename <> ""%string -> payload_filename (Some filename) now = filename) /\
  payload_filename (Some ""%string) now = payload_filename None now /\
  payload_filename None now
  = ("text_document_" ++ replace_colons (substring 0 19 now) ++ ".txt")%string /\
  contains_colon (payload_filename None now) = false /\
  (String.length (payload_filename None now) <= 37)%nat.
Proof.
  split; [| split; [reflexivity | split; [reflexivity | split]]].
  - intros filename Hne. unfold payload_filename, js_truthy_str.
    destruct (String.eqb filename "") eqn:E; [| reflexivity].
    apply String.eqb_eq in E. contradiction.
  - unfold payload_filename. cbn [js_truthy_str].
    rewrite !contains_colon_app, replace_colons_no_colon. reflexivity.
  - unfold payload_filename. cbn [js_truthy_str].
    rewrite !string_length_app, replace_colons_length.
    pose proof (substring_prefix_length 19 now). cbn [String.length]. lia.
Qed.

Lemma X8_text_filename_witness :
  "note.txt"%string <> ""%string /\
  payload_filename (Some "note.txt"%string) "2025-01-01T10:20:30.000Z" = "note.txt"%string /\
  payload_filename None "2025-01-01T10:20:30.000Z"
  = "text_document_2025-01-01T10-20-30.txt"%string.
Proof.
  assert (Hne : "note.txt"%string <> ""%string) by discriminate.
  split; [exact Hne | split; [| reflexivity]].
  destruct (X8_text_filename "2025-01-01T10:20:30.000Z") as [Hgiven _].
  exact (Hgiven "note.txt"%string Hne).
Defined.

(** ** The budget of a polling sequence *)

Section PollingBound.

Variable trackId : string.

(** The three ways one round can go: another attempt, the final refresh,
    or a silent stop. *)
Lemma round_cases (n : Z) (r : FetchResult TrackStatusResponse) (w : World) :
  quiet w ->
  let w' := run (checkUploadComplete trackId n w)
                [Arrive (nextReq w) (ATrack r); Fire 0] in
  (0 < n /\ w' = checkUploadComplete trackId (n - 1) (answered trackId w)) \/
  w' = listDocuments InCheck (answered trackId w) \/
  w' = answered trackId w.
Proof.
  intros [Hi Ht]. destruct w; cbn in Hi, Ht; subst.
  cbv zeta. unfold run, step, checkUploadComplete, fetch, seq. cbn.
  rewrite Nat.eqb_refl. cbn.
  destruct r as [e | [|] statusText [e | data]]; cbn; auto.
  unfold checkUploadComplete_resume.
  destruct (isComplete data); [right; left; reflexivity |].
  destruct (isStillProcessing data); cbn [andb]; [| right; left; reflexivity].
  destruct (0 <? n) eqn:Hn; [| right; left; reflexivity].
  left. split; [apply Z.ltb_lt; exact Hn | reflexivity].
Qed.

(** Once the sequence is over, the rest of its schedule changes nothing. *)
Lemma sequence_over_idle (rs : list (FetchResult TrackStatusResponse)) :
  forall (rid : nat) (w : World),
    sequence_over w -> run w (poll_schedule rid rs) = w.
Proof.
  induction rs as [| r rs IH]; intros rid w Hover; [reflexivity |].
  cbn [poll_schedule].
  change (run w (Arrive rid (ATrack r) :: Fire 0 :: poll_schedule (S rid) rs))
    with (run (step (step w (Arrive rid (ATrack r))) (Fire 0))
              (poll_schedule (S rid) rs)).
  assert (H1 : step w (Arrive rid (ATrack r)) = w).
  { destruct Hover as [_ [Hi | [rid0 Hi]]]; unfold step; rewrite Hi; cbn;
      [reflexivity |].
    destruct (Nat.eqb rid0 rid); reflexivity. }
  rewrite H1.
  assert (H2 : step w (Fire 0) = w).
  { destruct Hover as [Ht _]. unfold step. rewrite Ht. reflexivity. }
  rewrite H2. apply IH, Hover.
Qed.

Lemma answered_counts (w : World) :
  count_status_queries trackId (sent (answered trackId w))
  = S (count_status_queries trackId (sent w)) /\
  count_refreshes (sent (answered trackId w)) = count_refreshes (sent w) /\
  nextReq (answered trackId w) = S (nextReq w).
Proof.
  change (sent (answered trackId w)) with (sent w ++ [status_query trackId]).
  rewrite count_status_queries_app.
  unfold count_refreshes. rewrite filter_app, length_app.
  change (length (filter is_refresh [status_query trackId])) with 0%nat.
  replace (count_status_queries trackId [status_query trackId]) with 1%nat.
  - repeat split; lia.
  - unfold count_status_queries, is_status_query. cbn [filter status_query path].
    rewrite String.eqb_refl. reflexivity.
Qed.

End PollingBound.

(** X9: whatever the server answers to its status queries, a polling
    sequence started with [maxAttempts = n] sends at most [n + 1] status
    queries (one when [n] is zero or negative) and triggers at most one
    refresh. *)
Theorem X9_polling_is_bounded
    (trackId : string) (n : Z) (w : World)
    (rs : list (FetchResult TrackStatusResponse))
    (Hquiet : quiet w) :
  let w' := run (checkUploadComplete trackId n w) (poll_schedule (nextReq w) rs) in
  (count_status_queries trackId (sent w')
   <= count_status_queries trackId (sent w) + Z.to_nat n + 1)%nat /\
  (count_refreshes (sent w') <= count_refreshes (sent w) + 1)%nat.
Proof.
  revert n w Hquiet.
  induction rs as [| r rs IH]; intros n w Hq; cbv zeta.
  - cbn [poll_schedule run fold_left].
    change (sent (checkUploadComplete trackId n w))
      with (sent (answered trackId w)).
    destruct (answered_counts trackId w) as (-> & -> & _). lia.
  - cbn [poll_schedule].
    change (Arrive (nextReq w) (ATrack r) :: Fire 0
              :: poll_schedule (S (nextReq w)) rs)
      with ([Arrive (nextReq w) (ATrack r); Fire 0]
              ++ poll_schedule (S (nextReq w)) rs).
    rewrite run_app.
    destruct (answered_counts trackId w) as (Hc & Hr & Hn).
    pose proof (@answered_quiet trackId w Hq) as [Hi Ht].
    destruct (@round_cases trackId n r w Hq) as [[Hpos ->] | [-> | ->]].
    + rewrite <- Hn.
      destruct (IH (n - 1) (answered trackId w) (conj Hi Ht)) as [H1 H2].
      rewrite Hc in H1. rewrite Hr in H2. split; [| exact H2].
      replace (Z.to_nat n) with (S (Z.to_nat (n - 1))) by lia. lia.
    + rewrite sequence_over_idle.
      * change (sent (listDocuments InCheck (answered trackId w)))
          with (sent (answered trackId w) ++ [refresh_request]).
        rewrite count_status_queries_app.
        unfold count_refreshes at 1. rewrite filter_app, length_app.
        fold (count_refreshes (sent (answered trackId w))).
        rewrite Hc, Hr.
        change (count_status_queries trackId [refresh_request]) with 0%nat.
        change (length (filter is_refresh [refresh_request])) with 1%nat. lia.
      * split; [exact Ht |]. right. exists (nextReq (answered trackId w)).
        change (inflight (listDocuments InCheck (answered trackId w)))
          with (inflight (answered trackId w)
                  ++ [(nextReq (answered trackId w), AwaitDocuments InCheck)]).
        rewrite Hi. reflexivity.
    + rewrite sequence_over_idle.
      * rewrite Hc, Hr. lia.
      * split; [exact Ht | left; exact Hi].
Qed.

Lemma X9_polling_is_bounded_witness :
  quiet init_world /\
  (count_status_queries "t1"
     (sent (run (checkUploadComplete "t1" 1 init_world)
                (poll_schedule (nextReq init_world)
                   [track_busy; track_busy; track_busy; track_done])))
   <= count_status_queries "t1" (sent init_world) + Z.to_nat 1 + 1)%nat.
Proof.
  split; [split; reflexivity |].
  apply (@X9_polling_is_bounded "t1" 1 init_world
           [track_busy; track_busy; track_busy; track_done]).
  split; reflexivity.
Defined.

(** ** Status answers that settle nothing *)

Lemma nothing_to_report_flags (data : TrackStatusResponse) :
  nothing_to_report data = true ->
  isComplete data = false /\ isStillProcessing data = false.
Proof.
  unfold nothing_to_report, isComplete, isStillProcessing.
  destruct (status_summary data) as [s |]; [| auto].
  intro H. apply andb_true_iff in H as [H1 H2].
  apply negb_true_iff in H1. apply negb_true_iff in H2.
  rewrite H1, H2. auto.
Qed.

(** X10: a status answer that reports no processed and no processing
    document (only failed ones, zero counts, or no summary at all) ends
    the sequence at once with one refresh, however many attempts are
    left: no timer is set and nothing is shown, so a failed ingestion is
    not reported by the polling itself. *)
Theorem X10_unclear_status_refreshes
    (w : World) (rid : nat) (trackId statusText : string) (maxAttempts : Z)
    (data : TrackStatusResponse)
    (Hflight : lookup_req rid (inflight w) = Some (AwaitTrackStatus trackId maxAttempts))
    (Hnothing : nothing_to_report data = true) :
  let w' := step w (Arrive rid (ATrack (Responded true statusText (inr data)))) in
  sent w' = sent w ++ [refresh_request] /\
  inflight w' = remove_req rid (inflight w) ++ [(nextReq w, AwaitDocuments InCheck)] /\
  timers w' = timers w /\
  toasts w' = toasts w /\
  settled w' = settled w.
Proof.
  destruct (nothing_to_report_flags data Hnothing) as [Hc Hs].
  unfold step. rewrite Hflight. cbn [resume].
  unfold checkUploadComplete_resume. rewrite Hc, Hs.
  repeat split.
Qed.

Lemma X10_unclear_status_refreshes_witness :
  lookup_req 0 (inflight (checkUploadComplete "t1" 10 init_world))
  = Some (AwaitTrackStatus "t1" 10) /\
  timers (step (checkUploadComplete "t1" 10 init_world) (Arrive 0 (ATrack track_only_failed)))
  = [] /\
  count_refreshes
    (sent (step (checkUploadComplete "t1" 10 init_world)
             (Arrive 0 (ATrack track_only_failed)))) = 1%nat.
Proof.
  split; [reflexivity |].
  destruct (@X10_unclear_status_refreshes (checkUploadComplete "t1" 10 init_world)
              0%nat "t1" "OK" 10
              {| status_summary :=
                   Some {| sum_processed := Some 0; sum_processing := None |} |}
              eq_refl eq_refl) as (Hsent & _ & Htimers & _).
  split; [exact Htimers |].
  unfold track_only_failed. rewrite Hsent. reflexivity.
Defined.

(** ** A sequence that resolves *)

(** X11: a sequence started with [maxAttempts = n] that receives [k]
    busy answers, [k] at most [n], and then a terminal success, has sent
    exactly [k + 1] status queries and triggered exactly one refresh; no
    timer is left and only that refresh is in flight. *)
Theorem X11_resolves_after_busy_answers
    (trackId : string) (k : nat) (n : Z) (w : World)
    (rs : list (FetchResult TrackStatusResponse)) (r : FetchResult TrackStatusResponse)
    (Hquiet : quiet w)
    (Hlen : length rs = k)
    (Hbusy : forallb still_processing rs = true)
    (Hbudget : Z.of_nat k <= n)
    (Hdone : terminal_success r = true) :
  let w' := run (checkUploadComplete trackId n w)
                (poll_schedule (nextReq w) (rs ++ [r])) in
  count_status_queries trackId (sent w')
  = (count_status_queries trackId (sent w) + k + 1)%nat /\
  count_refreshes (sent w') = (count_refreshes (sent w) + 1)%nat /\
  timers w' = [] /\
  inflight w' = [((nextReq w + k + 1)%nat, AwaitDocuments InCheck)] /\
  toasts w' = toasts w /\
  documents w' = documents w.
Proof.
  cbv zeta. rewrite resolves_after_busy_rounds with (k := k) by assumption.
  destruct Hquiet as [Hi Ht].
  destruct (ended_fields trackId (S k) w) as (Hs & Hf & Ht' & Ho & Hd).
  rewrite Hs, Hf, Ht', Ho, Hd, Hi, Ht. repeat split.
  - rewrite !count_status_queries_app, count_status_queries_repeat.
    change (count_status_queries trackId [refresh_request]) with 0%nat. lia.
  - unfold count_refreshes. rewrite !filter_app, !length_app.
    fold (count_refreshes (repeat (status_query trackId) (S k))).
    rewrite count_refreshes_repeat. fold (count_refreshes (sent w)).
    change (length (filter is_refresh [refresh_request])) with 1%nat. lia.
  - replace (nextReq w + S k)%nat with (nextReq w + k + 1)%nat by lia. reflexivity.
Qed.

Lemma X11_resolves_after_busy_answers_witness :
  quiet init_world /\
  forallb still_processing [track_busy; track_busy; track_busy] = true /\
  terminal_success track_done = true /\
  count_status_queries "t1"
    (sent (run (checkUploadComplete "t1" 10 init_world)
               (poll_schedule (nextReq init_world)
                  ([track_busy; track_busy; track_busy] ++ [track_done]))))
  = (count_status_queries "t1" (sent init_world) + 3 + 1)%nat.
Proof.
  split; [split; reflexivity | split; [reflexivity | split; [reflexivity |]]].
  apply (@X11_resolves_after_busy_answers "t1" 3%nat 10 init_world
           [track_busy; track_busy; track_busy] track_done);
    [split; reflexivity | reflexivity | reflexivity | lia | reflexivity].
Defined.

(** ** Querying *)

(** X12: what the interface displays after a query.  A failed query (no
    connection, non-success status, unreadable body) returns [null],
    shows exactly one error toast and leaves the answer displayed before
    in place; a successful query whose response text is empty shows no
    toast and also leaves the previous answer in place; only a non-empty
    response replaces it.  The [querying] flag is lowered in every
    case. *)
Theorem X12_query_keeps_previous_answer
    (r : FetchResult LightRAGQueryResponse) (queryResult : string) :
  let '(result, shown, querying) := query_resume r in
  querying = false /\
  match r with
  | Responded true _ (inr answer) =>
      result = Some (response answer) /\ shown = [] /\
      handleQuery_resume result queryResult
      = (if String.eqb (response answer) "" then queryResult else response answer)
  | _ =>
      result = None /\ (exists msg, shown = [ToastError msg]) /\
      handleQuery_resume result queryResult = queryResult
  end.
Proof.
  destruct r as [e | [|] statusText [e | answer]]; cbn;
    repeat split; eauto.
  unfold handleQuery_resume. cbn.
  destruct (String.eqb (response answer) ""); reflexivity.
Qed.

(** ** Uploading a batch of files *)

Lemma count_refreshes_app (l1 l2 : list Request) :
  count_refreshes (l1 ++ l2) = (count_refreshes l1 + count_refreshes l2)%nat.
Proof. unfold count_refreshes. rewrite filter_app. apply length_app. Qed.

(** One file: the request leaves nothing in flight, the value returned is
    a success exactly when the server accepted the file, and one refresh
    is sent exactly then. *)
Lemma upload_one_fields (file : File) (a : UploadAnswers) (w : World) :
  inflight w = [] ->
  let accepts := match accepted (upload_answer a) with
                 | Some _ => true
                 | None => false
                 end in
  inflight (upload_one file a w) = [] /\
  is_success (last_upload_result (upload_one file a w)) = accepts /\
  count_refreshes (sent (upload_one file a w))
  = (count_refreshes (sent w) + if accepts then 1 else 0)%nat /\
  documents (upload_one file a w)
  = match accepted (upload_answer a), documents_or_throw (refresh_answer a) with
    | Some _, inr data => allDocs data
    | _, _ => documents w
    end.
Proof.
  intro Hi. destruct w; cbn in Hi; subst.
  destruct a as [ua ra]. unfold upload_one, last_upload_result. cbn.
  rewrite Nat.eqb_refl.
  destruct ua as [e | [|] st [e | res]]; cbn;
    try solve [rewrite last_last, filter_app, length_app; cbn; repeat split; lia].
  unfold uploadFile_resume. cbn.
  destruct (up_status res) eqn:Hst; cbn;
    try solve [rewrite last_last, filter_app, length_app; cbn; rewrite ?Hst;
               repeat split; lia].
  rewrite Nat.eqb_refl. cbn.
  destruct ra as [e | [|] st' [e | data]]; cbn;
    unfold upload_after_refresh;
    destruct (js_truthy_str (track_id res)); cbn;
    rewrite last_last, !filter_app, !length_app; cbn; rewrite Hst;
    repeat split; lia.
Qed.

Lemma count_accepted_cons (file : File) (a : UploadAnswers)
    (files : list (File * UploadAnswers)) :
  count_accepted ((file, a) :: files)
  = ((match accepted (upload_answer a) with Some _ => 1 | None => 0 end)
     + count_accepted files)%nat.
Proof.
  unfold count_accepted. cbn [filter snd].
  destruct (accepted (upload_answer a)); reflexivity.
Qed.

Lemma upload_loop_fields (files : list (File * UploadAnswers)) :
  forall (successCount : nat) (w : World),
    inflight w = [] ->
    fst (upload_loop files successCount w) = (successCount + count_accepted files)%nat /\
    inflight (snd (upload_loop files successCount w)) = [] /\
    count_refreshes (sent (snd (upload_loop files successCount w)))
    = (count_refreshes (sent w) + count_accepted files)%nat.
Proof.
  induction files as [| [file a] files IH]; intros successCount w Hi.
  - cbn. repeat split; auto; lia.
  - cbn [upload_loop]. rewrite count_accepted_cons.
    destruct (upload_one_fields file a w Hi) as (Hi' & Hs & Hr & _).
    rewrite Hs.
    destruct (accepted (upload_answer a)) as [res |].
    + destruct (IH (S successCount) (upload_one file a w) Hi') as (H1 & H2 & H3).
      rewrite H1, H3, Hr. repeat split; auto; lia.
    + destruct (IH successCount (upload_one file a w) Hi') as (H1 & H2 & H3).
      rewrite H1, H3, Hr. repeat split; auto; lia.
Qed.

(** X13: a batch of files uploaded through the interface, with nothing
    in flight at the start and no timer firing meanwhile.  The count of
    successes is the number of files the server accepted, so at most the
    number of files.  Each accepted file has sent one refresh before the
    next file is uploaded.  At the end, if at least one file was
    accepted, the interface shows one success toast with both counts and
    sends one more refresh; if none was, it shows no success toast and
    sends no refresh at all. *)
Theorem X13_batch_upload_refreshes
    (files : list (File * UploadAnswers)) (w : World)
    (Hidle : inflight w = []) :
  let k := count_accepted files in
  let w' := handleFileUpload files w in
  (fst (upload_loop files 0 w) = k /\ (k <= length files)%nat) /\
  (k = 0%nat ->
   w' = snd (upload_loop files 0 w) /\
   count_refreshes (sent w') = count_refreshes (sent w) /\
   inflight w' = []) /\
  ((0 < k)%nat ->
   count_refreshes (sent w') = (count_refreshes (sent w) + k + 1)%nat /\
   toasts w' = toasts (snd (upload_loop files 0 w)) ++
     [ToastSuccess (nat_to_string k ++ " of " ++ nat_to_string (length files) ++
                    " files uploaded successfully. Processing in background...")%string] /\
   inflight w' = [(nextReq (snd (upload_loop files 0 w)), AwaitDocuments ByCaller)]).
Proof.
  cbv zeta.
  destruct (upload_loop_fields files 0%nat w Hidle) as (Hk & Hi & Hr).
  cbn [Nat.add] in Hk.
  split; [split; [exact Hk | apply filter_length_le] |].
  unfold handleFileUpload.
  destruct files as [| fa files].
  - cbn. split; [auto | intro H; inversion H].
  - destruct (upload_loop (fa :: files) 0 w) as [successCount w1] eqn:Hloop.
    cbn [fst snd] in *. subst successCount.
    split.
    + intros Hzero. rewrite Hzero. cbn [Nat.ltb Nat.leb].
      rewrite Hr, Hzero. repeat split; auto; lia.
    + intros Hpos.
      assert (Hlt : Nat.ltb 0 (count_accepted (fa :: files)) = true)
        by (apply Nat.ltb_lt; exact Hpos).
      rewrite Hlt.
      change (sent ((toast
                       (ToastSuccess
                          (nat_to_string (count_accepted (fa :: files)) ++ " of " ++
                           nat_to_string (length (fa :: files)) ++
                           " files uploaded successfully. Processing in background..."));;
                     listDocuments ByCaller) w1))
        with (sent w1 ++ [refresh_request]).
      rewrite count_refreshes_app, Hr.
      split; [reflexivity | split; [reflexivity |]].
      change (inflight w1 ++ [(nextReq w1, AwaitDocuments ByCaller)]
              = [(nextReq w1, AwaitDocuments ByCaller)]).
      rewrite Hi. reflexivity.
Qed.

Lemma X13_batch_upload_refreshes_witness :
  inflight init_world = [] /\
  (0 < count_accepted two_file_batch)%nat /\
  count_refreshes (sent (handleFileUpload two_file_batch init_world))
  = (count_refreshes (sent init_world) + count_accepted two_file_batch + 1)%nat.
Proof.
  assert (Hpos : (0 < count_accepted two_file_batch)%nat) by (cbn; lia).
  split; [reflexivity | split; [exact Hpos |]].
  destruct (@X13_batch_upload_refreshes two_file_batch init_world eq_refl)
    as (_ & _ & Hsome).
  destruct (Hsome Hpos) as [Hrefreshes _]. exact Hrefreshes.
Defined.

(** ** The requests of the hook and the proxy route *)

Section RequestShapes.

(** A property of requests that holds of each request the hook builds. *)
Variable P : Request -> Prop.
Hypothesis P_refresh : P refresh_request.
Hypothesis P_status : forall trackId, P (status_query trackId).
Hypothesis P_upload : forall file,
  P {| method := POST; path := "/api/rag/documents/upload"; body := FormData file |}.
Hypothesis P_text : forall text filename,
  P {| method := POST; path := "/api/rag/documents/text";
       body := TextPayload text filename |}.
Hypothesis P_delete : forall documentId,
  P {| method := DELETE; path := "/documents/delete_document";
       body := DeletePayload [documentId] true |}.
Hypothesis P_clear : P {| method := DELETE; path := documents_path; body := NoBody |}.



End RequestShapes.



